(** * The chat client of the LinkedIn agent front end

    A shallow embedding of the chat state machine of the React front end:
    - [contexts/ChatContext] (second module of [frontend/src/App.jsx]):
      the provider state, [handleWebSocketMessage], [sendMessageREST],
      [sendMessageWS], [sendMessage] and the socket effect;
    - [services/api] (second module of [frontend/src/services/api.ts]):
      [fetchChatResponse] and [setupChatWebSocket];
    - [frontend/src/api/api.js]: the other [fetchChatResponse];
    - [components/ChatInput] (last module of
      [frontend/src/components/ChatInterface.tsx]): [handleSubmit].

    React state is a record that the handlers transform; every handler also
    returns the list of effects it performs on the outside world (console
    output, socket sends, HTTP requests), in program order. *)

From stdpp Require Import gmap strings list pretty.

Open Scope string_scope.
Open Scope list_scope.
Open Scope Z_scope.

(** ** JavaScript values *)

(** The primitive values that the JSON payloads of this program carry.
    Numbers are restricted to integers (exactly representable ones); [JNaN]
    is there because [+] on non-strings can produce it. *)
Inductive jsval : Type :=
  | JUndefined
  | JNull
  | JBool (b : bool)
  | JNum (n : Z)
  | JNaN
  | JStr (s : string).

#[global] Instance jsval_eq_dec : EqDecision jsval.
Proof. solve_decision. Defined.

(** ToBoolean: what [if (v)] and [v && w] test. *)
Definition truthy (v : jsval) : bool :=
  match v with
  | JUndefined | JNull | JNaN => false
  | JBool b => b
  | JNum n => negb (n =? 0)
  | JStr s => negb (bool_decide (s = ""))
  end.

(** ToString on primitives. *)
Definition js_to_string (v : jsval) : string :=
  match v with
  | JUndefined => "undefined"
  | JNull => "null"
  | JBool true => "true"
  | JBool false => "false"
  | JNum n => pretty n
  | JNaN => "NaN"
  | JStr s => s
  end.

(** ToNumber on the non-string primitives; [None] stands for NaN. *)
Definition js_to_number (v : jsval) : option Z :=
  match v with
  | JUndefined | JNaN => None
  | JNull => Some 0
  | JBool b => Some (if b then 1 else 0)
  | JNum n => Some n
  | JStr _ => None
  end.

Definition is_string (v : jsval) : bool :=
  match v with JStr _ => true | _ => false end.

(** The binary [+]: string concatenation as soon as one operand is a
    string, numeric addition otherwise. *)
Definition js_add (l r : jsval) : jsval :=
  if is_string l || is_string r then JStr (js_to_string l +:+ js_to_string r)
  else match js_to_number l, js_to_number r with
       | Some a, Some b => JNum (a + b)
       | _, _ => JNaN
       end.

(** [a === b] on primitives ([NaN] is not equal to itself). *)
Definition js_strict_eq (a b : jsval) : bool :=
  match a, b with
  | JNaN, _ | _, JNaN => false
  | _, _ => bool_decide (a = b)
  end.

(** [a || b] *)
Definition js_or (a b : jsval) : jsval := if truthy a then a else b.

(** A parsed JSON object, read by property name: an absent property reads
    as [undefined]. *)
Definition js_get (o : gmap string jsval) (k : string) : jsval :=
  default JUndefined (o !! k).

(** ** JSON documents, as handed to [JSON.stringify] *)

#[warnings="-register-all"]
Inductive json : Type :=
  | JsonNull
  | JsonBool (b : bool)
  | JsonNum (n : Z)
  | JsonStr (s : string)
  | JsonArr (items : list json)
  | JsonObj (fields : list (string * json)).

(** A property whose value is [undefined] is left out by [JSON.stringify];
    [NaN] is written as [null]. *)
Definition json_of_jsval (v : jsval) : option json :=
  match v with
  | JUndefined => None
  | JNull | JNaN => Some JsonNull
  | JBool b => Some (JsonBool b)
  | JNum n => Some (JsonNum n)
  | JStr s => Some (JsonStr s)
  end.

Definition json_field (k : string) (v : jsval) : list (string * json) :=
  match json_of_jsval v with
  | Some j => [(k, j)]
  | None => []
  end.

(** ** Chat messages *)

(** An element of the [messages] array: [{ role, content }], with
    [shouldPost] on the replies that came over REST ([JUndefined] when the
    property is absent). *)
Record Message : Type := mkMessage {
  role : string;
  content : jsval;
  shouldPost : jsval
}.

#[global] Instance Message_eq_dec : EqDecision Message.
Proof. solve_decision. Defined.

Definition set_content (c : jsval) (m : Message) : Message :=
  {| role := role m; content := c; shouldPost := shouldPost m |}.

(** [{ role: msg.role, content: msg.content }] *)
Record HistoryItem : Type := mkHistoryItem {
  h_role : string;
  h_content : jsval
}.

Definition history_item (msg : Message) : HistoryItem :=
  {| h_role := role msg; h_content := content msg |}.

Definition json_of_history_item (h : HistoryItem) : json :=
  JsonObj (("role", JsonStr (h_role h)) :: json_field "content" (h_content h)).

(** ** The outside world: sockets, requests, console *)

Inductive ReadyState : Type := CONNECTING | OPEN | CLOSING | CLOSED.

#[global] Instance ReadyState_eq_dec : EqDecision ReadyState.
Proof. solve_decision. Defined.

Record HttpRequest : Type := mkHttpRequest {
  req_url : string;
  req_method : string;
  req_headers : list (string * string);
  req_body : json
}.

Inductive Effect : Type :=
  | ConsoleLog (msg : string)
  | ConsoleError (msg : string)
  | NewWebSocket (url : string)          (* new WebSocket(url) *)
  | SocketClose (ws : nat)               (* ws.close() *)
  | SocketSend (ws : nat) (payload : json) (* ws.send(JSON.stringify(payload)) *)
  | Fetch (req : HttpRequest).           (* fetch(url, { method, headers, body }) *)

(** ** The provider state *)

(** The six [useState] cells of [ChatProvider], and the socket objects the
    browser owns: [websocket] holds a reference (an index into [sockets]) to
    an object whose [readyState] the browser changes behind the provider's
    back. *)
Record ChatState : Type := mkChatState {
  messages : list Message;
  isTyping : bool;
  currentPostContent : jsval;
  showPostPreview : bool;
  websocket : option nat;
  useWebsocket : bool;
  sockets : list ReadyState
}.

Definition initial_state : ChatState :=
  {| messages := [];
     isTyping := false;
     currentPostContent := JNull;
     showPostPreview := false;
     websocket := None;
     useWebsocket := true;
     sockets := [] |}.

(** A handler: a state transformer that also reports its effects. *)
Definition action : Type := ChatState → ChatState * list Effect.

Definition skip : action := λ s, (s, []).

Definition seq (a b : action) : action :=
  λ s, let '(s1, e1) := a s in
       let '(s2, e2) := b s1 in
       (s2, e1 ++ e2).

Notation "a >>> b" := (seq a b) (at level 65, right associativity).

Definition emit (e : Effect) : action := λ s, (s, [e]).

Definition emit_all (es : list Effect) : action := λ s, (s, es).

Definition when (c : bool) (a : action) : action := if c then a else skip.

Definition setMessages (f : list Message → list Message) : action :=
  λ s, ({| messages := f (messages s);
           isTyping := isTyping s;
           currentPostContent := currentPostContent s;
           showPostPreview := showPostPreview s;
           websocket := websocket s;
           useWebsocket := useWebsocket s;
           sockets := sockets s |}, []).

Definition setIsTyping (b : bool) : action :=
  λ s, ({| messages := messages s;
           isTyping := b;
           currentPostContent := currentPostContent s;
           showPostPreview := showPostPreview s;
           websocket := websocket s;
           useWebsocket := useWebsocket s;
           sockets := sockets s |}, []).

Definition setCurrentPostContent (v : jsval) : action :=
  λ s, ({| messages := messages s;
           isTyping := isTyping s;
           currentPostContent := v;
           showPostPreview := showPostPreview s;
           websocket := websocket s;
           useWebsocket := useWebsocket s;
           sockets := sockets s |}, []).

Definition setShowPostPreview (b : bool) : action :=
  λ s, ({| messages := messages s;
           isTyping := isTyping s;
           currentPostContent := currentPostContent s;
           showPostPreview := b;
           websocket := websocket s;
           useWebsocket := useWebsocket s;
           sockets := sockets s |}, []).

Definition setWebsocket (w : option nat) : action :=
  λ s, ({| messages := messages s;
           isTyping := isTyping s;
           currentPostContent := currentPostContent s;
           showPostPreview := showPostPreview s;
           websocket := w;
           useWebsocket := useWebsocket s;
           sockets := sockets s |}, []).

Definition storeUseWebsocket (b : bool) : action :=
  λ s, ({| messages := messages s;
           isTyping := isTyping s;
           currentPostContent := currentPostContent s;
           showPostPreview := showPostPreview s;
           websocket := websocket s;
           useWebsocket := b;
           sockets := sockets s |}, []).

(** What the browser does to the socket objects. *)
Definition updateSockets (f : list ReadyState → list ReadyState) : action :=
  λ s, ({| messages := messages s;
           isTyping := isTyping s;
           currentPostContent := currentPostContent s;
           showPostPreview := showPostPreview s;
           websocket := websocket s;
           useWebsocket := useWebsocket s;
           sockets := f (sockets s) |}, []).

(** ** services/api *)

(** What [JSON.parse] hands to the message callback: [null], or a value
    read by property name (a number, a string or an array has none of the
    properties the handler reads, and behaves as the empty object). *)
Inductive parsed : Type :=
  | PNull
  | PObject (o : gmap string jsval).

(** How an HTTP exchange ends: [fetch] rejects with an error carrying
    [message], or a response arrives, whose [json()] either rejects
    ([inl message]) or yields an object. *)
Inductive fetch_outcome : Type :=
  | FetchRejects (message : string)
  | FetchResponds (ok : bool) (status : Z) (body : string + gmap string jsval).

Module ServicesApi.

Definition API_BASE_URL : string := "http://localhost:8000".
Definition WS_BASE_URL : string := "ws://localhost:8000/ws".

(** [fetchChatResponse], up to its first [await]: the request it issues. *)
Definition fetchChatResponse (message : string) (chatHistory : list HistoryItem)
  : HttpRequest :=
  {| req_url := API_BASE_URL +:+ "/chat";
     req_method := "POST";
     req_headers := [("Content-Type", "application/json");
                     ("Accept", "application/json")];
     req_body :=
       JsonObj [("messages",
                 JsonArr (json_of_history_item <$>
                            (chatHistory ++ [mkHistoryItem "user" (JStr message)])))] |}.

(** [fetchChatResponse], from the first [await] on: the promise resolves
    with the response object ([inr]) or rejects with an error message
    ([inl]). *)
Definition fetchChatResponse_settle (o : fetch_outcome)
  : (string + gmap string jsval) * list Effect :=
  let tried : string + gmap string jsval :=
    match o with
    | FetchRejects m => inl m
    | FetchResponds ok status body =>
        if negb ok then
          let errorData := match body with inl _ => ∅ | inr d => d end in
          inl (js_to_string
                 (js_or (js_get errorData "detail")
                        (JStr ("HTTP error! status: " +:+ pretty status))))
        else body
    end in
  match tried with
  | inr response => (inr response, [])
  | inl m =>
      if bool_decide (m = "Failed to fetch") then
        (inl "Unable to connect to the server. Please make sure the backend server is running.", [])
      else
        (inl m, [ConsoleError "Error fetching chat response:"])
  end.

(** [setupChatWebSocket]: [new WebSocket(WS_BASE_URL)]; the new object is
    appended to the store and its index returned. *)
Definition setupChatWebSocket (s : ChatState) : nat * (ChatState * list Effect) :=
  (length (sockets s),
   (emit (NewWebSocket WS_BASE_URL) >>> updateSockets (λ l, l ++ [CONNECTING])) s).

Section Callbacks.
(** [onMessage] is [None] when the callback throws. *)
Variable onMessage : parsed → option action.
Variable onClose : action.
Variable onError : action.

Definition ws_onopen : action :=
  emit (ConsoleLog "WebSocket connection established").

(** [raw] is [None] when [JSON.parse(event.data)] throws; the [catch]
    also receives what [onMessage] throws. *)
Definition ws_onmessage (raw : option parsed) : action :=
  match raw ≫= onMessage with
  | Some handled => handled
  | None => emit (ConsoleError "Error parsing WebSocket message:") >>> onError
  end.

Definition ws_onclose : action :=
  emit (ConsoleLog "WebSocket connection closed") >>> onClose.

Definition ws_onerror : action :=
  emit (ConsoleError "WebSocket error:") >>> onError.
End Callbacks.

End ServicesApi.

(** ** contexts/ChatContext *)

(** The updater of the content branch of [handleWebSocketMessage]. *)
Definition append_chunk (chunk : jsval) (prev : list Message) : list Message :=
  let lastMessageIndex := Z.of_nat (length prev) - 1 in
  if bool_decide (lastMessageIndex < 0)
     || bool_decide (role <$> prev !! Z.to_nat lastMessageIndex ≠ Some "assistant")
  then prev ++ [mkMessage "assistant" chunk JUndefined]
  else alter (λ lastMessage,
                set_content (js_add (content lastMessage) chunk) lastMessage)
             (Z.to_nat lastMessageIndex) prev.

(** [handleWebSocketMessage(data)]; reading a property of [null] throws. *)
Definition handleWebSocketMessage (data : parsed) : option action :=
  match data with
  | PNull => None
  | PObject data =>
      Some (
        if truthy (js_get data "error") then
          emit (ConsoleError "Error from WebSocket:") >>>
          setIsTyping false
        else if js_strict_eq (js_get data "type") (JStr "complete") then
          setIsTyping false >>>
          when (truthy (js_get data "should_post") && truthy (js_get data "post_content"))
            (setCurrentPostContent (js_get data "post_content") >>>
             setShowPostPreview true)
        else
          when (truthy (js_get data "content"))
            (setMessages (append_chunk (js_get data "content"))))
  end.

(** The callbacks the effect passes to [setupChatWebSocket]. *)
Definition onClose : action := emit (ConsoleLog "WebSocket closed").
Definition onError : action := emit (ConsoleError "WebSocket error:").

(** The body of the effect, run on mount and whenever [useWebsocket]
    changes. *)
Definition socket_effect : action :=
  λ s, if useWebsocket s then
         let '(ws, (s1, e1)) := ServicesApi.setupChatWebSocket s in
         let '(s2, e2) := setWebsocket (Some ws) s1 in
         (s2, e1 ++ e2)
       else skip s.

(** [ws.close()]: a socket that is connecting or open starts closing. *)
Definition close_socket (ws : nat) : action :=
  emit (SocketClose ws) >>>
  updateSockets (λ l, match l !! ws with
                      | Some CONNECTING | Some OPEN => <[ws := CLOSING]> l
                      | _ => l
                      end).

(** The clean-up the effect returned: only a run that saw [useWebsocket]
    true returns one; its [ws] is the socket that run stored in
    [websocket]. *)
Definition socket_effect_cleanup : action :=
  λ s, if useWebsocket s then
         match websocket s with
         | Some ws => close_socket ws s
         | None => skip s
         end
       else skip s.

(** [sendMessageREST], up to the [await]. [messages] is the array of the
    render the handler was created in, so the history does not contain the
    message being sent. *)
Definition sendMessageREST (messageText : string) : action :=
  λ s,
    (setIsTyping true >>>
     setMessages (λ prev, prev ++ [mkMessage "user" (JStr messageText) JUndefined]) >>>
     emit (Fetch (ServicesApi.fetchChatResponse messageText
                    (history_item <$> messages s)))) s.

(** [sendMessageREST], after the [await]. *)
Definition sendMessageREST_resume (o : fetch_outcome) : action :=
  let '(settled, logged) := ServicesApi.fetchChatResponse_settle o in
  emit_all logged >>>
  match settled with
  | inr response =>
      setMessages (λ prev, prev ++ [mkMessage "assistant"
                                      (js_get response "message")
                                      (js_get response "should_post")]) >>>
      when (truthy (js_get response "should_post")
            && truthy (js_get response "post_content"))
        (setCurrentPostContent (js_get response "post_content") >>>
         setShowPostPreview true) >>>
      setIsTyping false
  | inl _ =>
      emit (ConsoleError "Error sending message:") >>>
      setIsTyping false
  end.

(** [sendMessageWS]. With the socket open neither [JSON.stringify] nor
    [send] throws, so the [catch] is not taken. *)
Definition sendMessageWS (messageText : string) : action :=
  λ s,
    match websocket s with
    | Some ws =>
        if negb (bool_decide (sockets s !! ws = Some OPEN)) then
          (emit (ConsoleError "WebSocket not connected") >>>
           sendMessageREST messageText) s
        else
          (setIsTyping true >>>
           setMessages (λ prev, prev ++ [mkMessage "user" (JStr messageText) JUndefined]) >>>
           emit (SocketSend ws
                   (JsonObj [("message", JsonStr messageText);
                             ("chat_history",
                              JsonArr (json_of_history_item <$>
                                         (history_item <$> messages s)))]))) s
    | None =>
        (emit (ConsoleError "WebSocket not connected") >>>
         sendMessageREST messageText) s
    end.

Definition sendMessage (messageText : string) : action :=
  λ s, if useWebsocket s && bool_decide (is_Some (websocket s))
       then sendMessageWS messageText s
       else sendMessageREST messageText s.

(** [setUseWebsocket], which the provider hands to its consumers: a new
    value re-runs the effect, after the clean-up of the previous run. *)
Definition setUseWebsocket (b : bool) : action :=
  λ s, if bool_decide (b = useWebsocket s) then skip s
       else (socket_effect_cleanup >>> storeUseWebsocket b >>> socket_effect) s.

(** ** The events of a session *)

(** What can happen to a mounted provider. Handlers run one at a time, each
    on the state the previous one left: the provider has rendered again by
    the time the next event is handled. *)
Inductive Event : Type :=
  | Mount                                   (* first render: the effect runs *)
  | SetUseWebsocket (b : bool)              (* a consumer calls the setter *)
  | SocketOpened (ws : nat)                 (* the browser fires ws.onopen *)
  | SocketClosed (ws : nat)                 (* ... ws.onclose *)
  | SocketErrored (ws : nat)                (* ... ws.onerror *)
  | SocketMessage (ws : nat) (raw : option parsed) (* ... ws.onmessage *)
  | SendMessage (messageText : string)      (* a consumer calls sendMessage *)
  | FetchSettled (o : fetch_outcome).       (* the awaited request settles *)

Definition step (e : Event) : action :=
  match e with
  | Mount => socket_effect
  | SetUseWebsocket b => setUseWebsocket b
  | SocketOpened ws =>
      updateSockets (<[ws := OPEN]>) >>> ServicesApi.ws_onopen
  | SocketClosed ws =>
      updateSockets (<[ws := CLOSED]>) >>> ServicesApi.ws_onclose onClose
  | SocketErrored ws => ServicesApi.ws_onerror onError
  | SocketMessage ws raw =>
      ServicesApi.ws_onmessage handleWebSocketMessage onError raw
  | SendMessage messageText => sendMessage messageText
  | FetchSettled o => sendMessageREST_resume o
  end.

Fixpoint run (evs : list Event) : action :=
  match evs with
  | [] => skip
  | e :: evs => step e >>> run evs
  end.

(** ** api/api.js *)

Module ApiJs.

(** The elements of the [messages] array of the component that calls
    this module: [{ text, isUser }]. *)
Record UiMessage : Type := mkUiMessage {
  text : string;
  isUser : bool
}.

Section Builtins.
(** [String.prototype.trim] *)
Variable trim : string → string.

(** [fetchChatResponse], up to its [await]: the request it issues. *)
Definition fetchChatResponse (message : string) (chatHistory : list UiMessage)
  : HttpRequest :=
  let formattedHistory :=
    (λ msg, mkHistoryItem (if isUser msg then "user" else "assistant")
                          (JStr (text msg))) <$> chatHistory in
  let requestBody :=
    JsonObj [("message", JsonStr (trim message));
             ("chat_history", JsonArr (json_of_history_item <$> formattedHistory))] in
  {| req_url := "http://localhost:8000/chat";
     req_method := "POST";
     req_headers := [("Content-Type", "application/json")];
     req_body := requestBody |}.
End Builtins.

End ApiJs.

(** ** components/ChatInput and its wiring in App *)

Module ChatInput.

Section Props.
Variable trim : string → string.
Variable onSendMessage : string → action.
Variable isLoading : bool.

(** [handleSubmit] for the text [message] typed in the field; returns
    the new content of the field with the outcome. *)
Definition handleSubmit (message : string)
  : ChatState → string * (ChatState * list Effect) :=
  λ s, if truthy (JStr (trim message)) && negb isLoading
       then ("", onSendMessage message s)
       else (message, skip s).
End Props.

End ChatInput.

(** [<ChatInput onSendMessage={sendMessage} isLoading={isTyping} />] *)
Definition ChatContainer_submit (trim : string → string) (message : string)
  : ChatState → string * (ChatState * list Effect) :=
  λ s, ChatInput.handleSubmit trim sendMessage (isTyping s) message s.

(** [<Sidebar onTopicSelect={handleTopicSelect} />] *)
Definition handleTopicSelect (topic : string) : action := sendMessage topic.

(** [String.prototype.trim] on strings whose white space is ASCII. *)
Fixpoint trim_start (s : string) : string :=
  match s with
  | String a rest => if Ascii.is_space a then trim_start rest else s
  | EmptyString => EmptyString
  end.

Definition ascii_trim (s : string) : string :=
  String.rev (trim_start (String.rev (trim_start s))).

(** ** Reading the state *)

(** The state with another [messages] array. *)
Definition with_messages (msgs : list Message) (s : ChatState) : ChatState :=
  fst (setMessages (λ _, msgs) s).

(** [websocket && websocket.readyState === WebSocket.OPEN] *)
Definition socket_open (s : ChatState) : bool :=
  match websocket s with
  | Some ws => bool_decide (sockets s !! ws = Some OPEN)
  | None => false
  end.

Definition last_role (msgs : list Message) : option string :=
  role <$> last msgs.

(** The stream events, as the handler tells them apart. An Error event
    carries a truthy [error]; a Complete event has no such [error] and
    [type] equal to ["complete"]; a Fragment with text [t] is neither and
    carries [t] as its [content]. *)
Definition is_error_event (o : gmap string jsval) : Prop :=
  truthy (js_get o "error") = true.

Definition is_complete_event (o : gmap string jsval) : Prop :=
  truthy (js_get o "error") = false ∧
  js_get o "type" = JStr "complete".

Definition is_fragment (o : gmap string jsval) (t : string) : Prop :=
  truthy (js_get o "error") = false ∧
  js_get o "type" ≠ JStr "complete" ∧
  js_get o "content" = JStr t.

(** The delivery of the parsed objects [datas], in order, on socket [ws]. *)
Definition deliver (ws : nat) (datas : list (gmap string jsval)) : list Event :=
  (λ o, SocketMessage ws (Some (PObject o))) <$> datas.

Definition concat_texts (texts : list string) : string :=
  foldr String.app "" texts.

Definition is_socket_send (e : Effect) : bool :=
  match e with SocketSend _ _ => true | _ => false end.

Definition is_new_socket (e : Effect) : bool :=
  match e with NewWebSocket _ => true | _ => false end.

Definition is_fetch (e : Effect) : bool :=
  match e with Fetch _ => true | _ => false end.

(** What goes out on a transport, console output left aside. *)
Definition is_transport (e : Effect) : bool :=
  is_socket_send e || is_fetch e.


(** The request body the interface description gives for the chat
    endpoint: [{ message: string, chat_history: [{role, content}] }]. *)
Definition is_role_content (j : json) : bool :=
  match j with
  | JsonObj [(k1, _); (k2, _)] =>
      bool_decide (k1 = "role") && bool_decide (k2 = "content")
  | _ => false
  end.

Definition chat_request_shape (j : json) : bool :=
  match j with
  | JsonObj [(k1, JsonStr _); (k2, JsonArr items)] =>
      bool_decide (k1 = "message") && bool_decide (k2 = "chat_history")
      && forallb is_role_content items
  | _ => false
  end.

(** Does the awaited request end in the [catch] of [sendMessageREST]? *)
Definition fetch_fails (o : fetch_outcome) : bool :=
  match fst (ServicesApi.fetchChatResponse_settle o) with
  | inl _ => true
  | inr _ => false
  end.

(** The publish offer after an event or reply carrying [should_post] and
    [post_content], starting from state [s]. *)
Definition offer_after (o : gmap string jsval) (s : ChatState) : jsval * bool :=
  if truthy (js_get o "should_post") && truthy (js_get o "post_content")
  then (js_get o "post_content", true)
  else (currentPostContent s, showPostPreview s).

(** The provider's counterpart of the REST_ONLY policy state: the flag
    that makes [sendMessage] bypass the socket. *)
Definition rest_only (s : ChatState) : Prop := useWebsocket s = false.

Definition is_mount (e : Event) : bool :=
  match e with Mount => true | _ => false end.


(** ** Further readings of the state *)


(** Every turn has a content that [JSON.stringify] writes out. *)
Definition contents_defined (msgs : list Message) : Prop :=
  Forall (λ m, content m ≠ JUndefined) msgs.

(** A reply without a [message] property is the one event that stores a
    turn whose content is [undefined]. *)
Definition reply_has_message (e : Event) : bool :=
  match e with
  | FetchSettled o =>
      match fst (ServicesApi.fetchChatResponse_settle o) with
      | inr response => bool_decide (js_get response "message" ≠ JUndefined)
      | inl _ => true
      end
  | _ => true
  end.

(** ** The post preview *)

(** What the user can do besides what the provider handles by itself:
    close the preview ([onClose]) or confirm it ([postToLinkedIn]). *)
Inductive UiEvent : Type :=
  | Provider (e : Event)
  | ClosePreview
  | PostToLinkedIn.

Inductive UiEffect : Type :=
  | ProviderEffect (e : Effect)
  | Alert (msg : string).

(** [postToLinkedIn] *)
Definition postToLinkedIn (s : ChatState) : ChatState * list UiEffect :=
  (fst (setShowPostPreview false s), [Alert "Post shared successfully to LinkedIn!"]).

Definition ui_step (e : UiEvent) (s : ChatState) : ChatState * list UiEffect :=
  match e with
  | Provider e => (fst (step e s), ProviderEffect <$> snd (step e s))
  | ClosePreview => (fst (setShowPostPreview false s), [])
  | PostToLinkedIn => postToLinkedIn s
  end.

Fixpoint ui_run (evs : list UiEvent) (s : ChatState) : ChatState * list UiEffect :=
  match evs with
  | [] => (s, [])
  | e :: evs =>
      let '(s1, e1) := ui_step e s in
      let '(s2, e2) := ui_run evs s1 in
      (s2, e1 ++ e2)
  end.

(** What [PostPreview] gives for its [post]: nothing on a falsy one;
    otherwise the dialog for that text. Its body is [formatContent(post)],
    which calls [content.replace], and that exists on strings only: a truthy
    [post] that is not a string makes the render throw. (The mark-up that
    [formatContent] puts around hashtags is not part of this type.) *)
Inductive rendering : Type :=
  | Nothing
  | Dialog (post : string)
  | RenderThrows.

Definition PostPreview (post : jsval) : rendering :=
  if negb (truthy post) then Nothing
  else match post with
       | JStr content => Dialog content
       | _ => RenderThrows
       end.

(** [{showPostPreview && <PostPreview post={currentPostContent} ... />}] *)
Definition preview_rendering (s : ChatState) : rendering :=
  if showPostPreview s then PostPreview (currentPostContent s) else Nothing.

(** Is [v] a string, or falsy? *)
Definition text_or_falsy (v : jsval) : bool :=
  is_string v || negb (truthy v).

(** The [post_content] an event brings, if it brings one, is a text. *)
Definition offers_text (e : UiEvent) : bool :=
  match e with
  | Provider (SocketMessage _ (Some (PObject o))) =>
      text_or_falsy (js_get o "post_content")
  | Provider (FetchSettled o) =>
      match fst (ServicesApi.fetchChatResponse_settle o) with
      | inr response => text_or_falsy (js_get response "post_content")
      | inl _ => true
      end
  | _ => true
  end.

Definition is_ui_mount (e : UiEvent) : bool :=
  match e with Provider Mount => true | _ => false end.

(** The events that touch [isTyping]: a send, the settlement of a request,
    and the Error and Complete events of the stream. *)
Definition touches_typing (e : Event) : bool :=
  match e with
  | SendMessage _ | FetchSettled _ => true
  | SocketMessage _ (Some (PObject o)) =>
      truthy (js_get o "error") || js_strict_eq (js_get o "type") (JStr "complete")
  | _ => false
  end.

(** What [isTyping] is after an event of a mounted provider, given what
    it was before. *)
Definition typing_after (e : Event) (before : bool) : bool :=
  match e with
  | SendMessage _ => true
  | FetchSettled _ => false
  | SocketMessage _ (Some (PObject o)) =>
      if truthy (js_get o "error") || js_strict_eq (js_get o "type") (JStr "complete")
      then false else before
  | _ => before
  end.

(** ** services/api.ts (first module): the axios client *)

Module ApiTs.

(** The request configuration handed to axios. *)
Record AxiosRequest : Type := mkAxiosRequest {
  ax_baseURL : string;
  ax_url : string;
  ax_method : string;
  ax_headers : list (string * string);
  ax_timeout : Z;
  ax_data : json
}.

(** What the interceptors do to the browser, and the console. *)
Inductive BrowserEffect : Type :=
  | LogError (msg : string)              (* console.error *)
  | RemoveItem (key : string)            (* localStorage.removeItem *)
  | SetLocation (href : string).         (* window.location.href = ... *)

(** How axios settles the request. [data] is [None] when the body is
    falsy (fulfilled) or is not an object (rejected); a rejection without
    [response] is a network error or a timeout. *)
Inductive axios_outcome : Type :=
  | AxiosFulfilled (status : Z) (data : option (gmap string jsval))
  | AxiosRejected (response : option (Z * option (gmap string jsval)))
                  (message : string).

Section Environment.
(** [process.env.REACT_APP_API_BASE_URL] *)
Variable REACT_APP_API_BASE_URL : option string.

Definition API_BASE_URL : string :=
  match REACT_APP_API_BASE_URL with
  | Some url => if truthy (JStr url) then url else "http://localhost:8000"
  | None => "http://localhost:8000"
  end.

(** The request interceptor; [token] is [localStorage.getItem('token')]. *)
Definition request_interceptor (token : option string) (config : AxiosRequest)
  : AxiosRequest :=
  match token with
  | Some t =>
      if truthy (JStr t) then
        {| ax_baseURL := ax_baseURL config;
           ax_url := ax_url config;
           ax_method := ax_method config;
           ax_headers := ax_headers config ++ [("Authorization", "Bearer " +:+ t)];
           ax_timeout := ax_timeout config;
           ax_data := ax_data config |}
      else config
  | None => config
  end.

(** [sendMessage], up to its [await]: [api.post('/chat', ...)] through the
    request interceptor. *)
Definition sendMessage (token : option string) (message : string) : AxiosRequest :=
  request_interceptor token
    {| ax_baseURL := API_BASE_URL;
       ax_url := "/chat";
       ax_method := "post";
       ax_headers := [("Content-Type", "application/json")];
       ax_timeout := 30000;
       ax_data := JsonObj [("message", JsonStr message);
                           ("chat_history", JsonArr [])] |}.
End Environment.

(** The rejection branch of the response interceptor: the message of the
    error it rejects with, the token left in storage, and its effects. *)
Definition response_interceptor
    (response : option (Z * option (gmap string jsval))) (message : string)
    (token : option string)
  : string * option string * list BrowserEffect :=
  let unauthorized :=
    match response with
    | Some (status, _) => bool_decide (status = 401)
    | None => false
    end in
  let detail :=
    match response with
    | Some (_, Some data) => js_get data "detail"
    | _ => JUndefined
    end in
  (js_to_string (js_or detail (JStr message)),
   if unauthorized then None else token,
   if unauthorized then [RemoveItem "token"; SetLocation "/login"] else []).

(** [sendMessage], from its [await] on: it never rejects; it resolves with
    the body or with an error object. *)
Definition sendMessage_settle (o : axios_outcome) (token : option string)
  : gmap string jsval * option string * list BrowserEffect :=
  let error_object (m : string) : gmap string jsval :=
    <[ "status" := JStr "error" ]>
      {[ "error" := js_or (JStr m) (JStr "Failed to send message. Please try again.") ]} in
  match o with
  | AxiosFulfilled _ (Some data) => (data, token, [])
  | AxiosFulfilled _ None =>
      (error_object "No response data received", token,
       [LogError "Error sending message:"])
  | AxiosRejected response message =>
      let '(m, token', effects) := response_interceptor response message token in
      (error_object m, token', effects ++ [LogError "Error sending message:"])
  end.

End ApiTs.

(** ** pages/ChatPage (second module of [pages/GeneratePost.tsx]) *)

Module ChatPage.

(** The two [useState] cells of the page; a message is [{ role, content }]. *)
Record State : Type := mkState {
  messages : list HistoryItem;
  isLoading : bool
}.

(** [handleSendMessage], up to the [await]. *)
Definition handleSendMessage (env : option string) (token : option string)
    (message : string) (s : State) : State * ApiTs.AxiosRequest :=
  ({| messages := messages s ++ [mkHistoryItem "user" (JStr message)];
      isLoading := true |},
   ApiTs.sendMessage env token message).

(** The content of the assistant turn made from a response. *)
Definition assistant_content (response : gmap string jsval) : jsval :=
  if js_strict_eq (js_get response "status") (JStr "success")
  then js_get response "message"
  else js_or (js_get response "error") (JStr "An error occurred").

(** [handleSendMessage], after the [await], [finally] included.
    [sendMessage] does not reject, so the [catch] is not taken. *)
Definition handleSendMessage_resume (o : ApiTs.axios_outcome)
    (token : option string) (s : State)
  : State * option string * list ApiTs.BrowserEffect :=
  let '(response, token', effects) := ApiTs.sendMessage_settle o token in
  ({| messages := messages s ++ [mkHistoryItem "assistant" (assistant_content response)];
      isLoading := false |},
   token', effects).

End ChatPage.

(** ** components/ChatInterface (first module of
    [components/ChatInterface.tsx]) *)

Module ChatInterface.

Section Props.
Variable trim : string → string.
Variable A : Type.
(** [onSendMessage], with what the caller does when it is not invoked. *)
Variable onSendMessage : string → A.
Variable idle : A.
Variable isLoading : bool.

(** [handleSubmit] for the text [input] of the field; returns the new
    content of the field with the outcome. *)
Definition handleSubmit (input : string) : string * A :=
  if truthy (JStr (trim input)) && negb isLoading
  then ("", onSendMessage (trim input))
  else (input, idle).
End Props.

End ChatInterface.

(** [<ChatInterface onSendMessage={handleSendMessage} messages={messages}
    isLoading={isLoading} />] *)
Definition ChatPage_submit (trim : string → string) (env token : option string)
    (input : string) (s : ChatPage.State)
  : string * (ChatPage.State * option ApiTs.AxiosRequest) :=
  ChatInterface.handleSubmit trim _
    (λ message, let '(s', req) := ChatPage.handleSendMessage env token message s in
                (s', Some req))
    (s, None)
    (ChatPage.isLoading s) input.

(** Did the request end without a usable body? *)
Definition axios_fails (o : ApiTs.axios_outcome) : bool :=
  match o with
  | ApiTs.AxiosFulfilled _ (Some _) => false
  | _ => true
  end.

(** ** components/ChatInterface.jsx and its use of api/api.js *)

Module ChatInterfaceJsx.

(** An element of the [messages] array of this component: the text of a
    reply is whatever the server put in [data.message]. *)
Record JsxMessage : Type := mkJsxMessage {
  text : jsval;
  isUser : bool
}.

Record State : Type := mkState {
  messages : list JsxMessage;
  input : string;
  isLoading : bool;
  error : jsval
}.

(** How the exchange of [fetchChatResponse] (api/api.js) ends: [fetch]
    rejects, [response.json()] rejects, or a body arrives; [data] is the body
    read by property name and [inner] is [data.data] when that is an object
    ([None] when it is [null] or absent, so that reading its [message]
    throws). *)
Inductive outcome : Type :=
  | FetchRejected (message : string)
  | JsonRejected (message : string)
  | Responded (ok : bool) (data : gmap string jsval)
              (inner : option (gmap string jsval)).

Section Builtins.
Variable trim : string → string.
(** The message of the [TypeError] thrown on reading a property of [null]
    or [undefined]. *)
Variable type_error_message : string.

(** [fetchChatResponse(message, chatHistory)] of api/api.js, up to the
    first [await], for the history this component passes. *)
Definition fetchChatResponse (message : string) (chatHistory : list JsxMessage)
  : HttpRequest :=
  let formattedHistory :=
    (λ msg, mkHistoryItem (if isUser msg then "user" else "assistant") (text msg))
      <$> chatHistory in
  let requestBody :=
    JsonObj [("message", JsonStr (trim message));
             ("chat_history", JsonArr (json_of_history_item <$> formattedHistory))] in
  {| req_url := "http://localhost:8000/chat";
     req_method := "POST";
     req_headers := [("Content-Type", "application/json")];
     req_body := requestBody |}.

(** [fetchChatResponse], from the first [await] on: it resolves with
    [data.data.message] or rejects with an error message, which it logs. A
    body that has arrived is logged first. *)
Definition fetchChatResponse_settle (o : outcome) : (string + jsval) * list Effect :=
  let failed (m : string) : (string + jsval) * list Effect :=
    (inl m, [ConsoleError "Error fetching chat response:"]) in
  let received (r : (string + jsval) * list Effect) : (string + jsval) * list Effect :=
    (fst r, ConsoleLog "Received response:" :: snd r) in
  match o with
  | FetchRejected m => failed m
  | JsonRejected m => failed m
  | Responded ok data inner =>
      received
        (if negb ok then
           failed (js_to_string (js_or (js_get data "error")
                                   (JStr "Failed to get chat response")))
         else if negb (truthy (js_get data "success")) then
           failed (js_to_string (js_or (js_get data "error")
                                   (JStr "Failed to get chat response")))
         else match inner with
              | Some d => (inr (js_get d "message"), [])
              | None => failed type_error_message
              end)
  end.

(** [handleSubmit], up to the [await]; [None] when it returns at once. *)
Definition handleSubmit (s : State) : option (State * list Effect) :=
  if negb (truthy (JStr (trim (input s)))) then None
  else
    Some ({| messages := messages s ++ [mkJsxMessage (JStr (trim (input s))) true];
             input := "";
             isLoading := true;
             error := JNull |},
          [ConsoleLog "Sending request:";
           Fetch (fetchChatResponse (input s) (messages s))]).

(** The [catch] and [finally] of the two handlers, for an error whose
    message is [m]. *)
Definition caught (label fallback : string) (decorate : string → string)
    (m : string) (s : State) : State * list Effect :=
  let errorMessage := js_to_string (js_or (JStr m) (JStr fallback)) in
  ({| messages := messages s ++ [mkJsxMessage (JStr (decorate errorMessage)) false];
      input := input s;
      isLoading := false;
      error := JStr errorMessage |},
   [ConsoleError label]).

(** [handleSubmit], after the [await]. *)
Definition handleSubmit_resume (o : outcome) (s : State) : State * list Effect :=
  let '(settled, logged) := fetchChatResponse_settle o in
  let on_error m :=
    let '(s', e) :=
      caught "Error:"
        "Sorry, there was an error processing your message. Please try again."
        id m s in
    (s', logged ++ e) in
  match settled with
  | inr response =>
      if truthy response then
        ({| messages := messages s ++ [mkJsxMessage response false];
            input := input s;
            isLoading := false;
            error := error s |}, logged)
      else on_error "No response received from the AI"
  | inl m => on_error m
  end.

(** [handlePostToLinkedIn(content)], up to the [await]. *)
Definition handlePostToLinkedIn (content : jsval) (s : State) : State * list Effect :=
  ({| messages := messages s;
      input := input s;
      isLoading := true;
      error := JNull |},
   [Fetch {| req_url := "http://localhost:8000/api/v1/posts/post";
             req_method := "POST";
             req_headers := [("Content-Type", "application/json")];
             req_body := JsonObj (json_field "content" content
                                  ++ [("visibility", JsonStr "PUBLIC")]) |}]).

(** [handlePostToLinkedIn], after the [await]: [data] is the parsed body,
    [inl] the message of the error with which [fetch] or [json()]
    rejected. *)
Definition handlePostToLinkedIn_resume (o : string + gmap string jsval) (s : State)
  : State * list Effect :=
  let on_error :=
    caught "Error posting to LinkedIn:" "Failed to post to LinkedIn"
           (λ m, "❌ " +:+ m) in
  match o with
  | inr data =>
      if negb (truthy (js_get data "success")) then
        on_error (js_to_string (js_or (js_get data "error")
                                  (JStr "Failed to post to LinkedIn"))) s
      else
        ({| messages :=
              messages s ++
              [mkJsxMessage
                 (JStr ("✅ " +:+ js_to_string
                                    (js_or (js_get data "message")
                                       (JStr "Successfully posted to LinkedIn!"))))
                 false];
            input := input s;
            isLoading := false;
            error := error s |}, [])
  | inl m => on_error m s
  end.
End Builtins.

End ChatInterfaceJsx.

(** The history of string texts, as [ApiJs.fetchChatResponse] takes it. *)
Definition jsx_of_ui (m : ApiJs.UiMessage) : ChatInterfaceJsx.JsxMessage :=
  ChatInterfaceJsx.mkJsxMessage (JStr (ApiJs.text m)) (ApiJs.isUser m).

(** Does the exchange of [ChatInterfaceJsx.handleSubmit] end in its
    [catch]? *)
Definition jsx_fails (type_error_message : string) (o : ChatInterfaceJsx.outcome)
  : bool :=
  match fst (ChatInterfaceJsx.fetchChatResponse_settle type_error_message o) with
  | inl _ => true
  | inr response => negb (truthy response)
  end.

(** Did the post go through? *)
Definition post_succeeds (o : string + gmap string jsval) : bool :=
  match o with
  | inr data => truthy (js_get data "success")
  | inl _ => false
  end.

(** ** services/api: [generatePosts] *)

Module ServicesApiPosts.

(** [generatePosts], up to its first [await]. *)
Definition generatePosts (topic : string) (chatHistory : list HistoryItem)
  : HttpRequest :=
  {| req_url := ServicesApi.API_BASE_URL +:+ "/posts";
     req_method := "POST";
     req_headers := [("Content-Type", "application/json")];
     req_body :=
       JsonObj [("messages",
                 JsonArr (json_of_history_item <$>
                            (chatHistory ++ [mkHistoryItem "user" (JStr topic)])))] |}.

(** [generatePosts], from the first [await] on. *)
Definition generatePosts_settle (o : fetch_outcome)
  : (string + gmap string jsval) * list Effect :=
  let tried : string + gmap string jsval :=
    match o with
    | FetchRejects m => inl m
    | FetchResponds ok status body =>
        if negb ok then inl ("API error: " +:+ pretty status) else body
    end in
  match tried with
  | inr response => (inr response, [])
  | inl m => (inl m, [ConsoleError "Error generating posts:"])
  end.

End ServicesApiPosts.

(** ** The chat component over services/api (src/unnamed/part_005) *)

Module GeneratorChat.

Section Builtins.
Variable trim : string → string.
Variable type_error_message : string.

(** [handleSubmit], up to the [await]; [None] when it returns at once. The
    state is that of [ChatInterfaceJsx]: the same four cells. *)
Definition handleSubmit (s : ChatInterfaceJsx.State)
  : option (ChatInterfaceJsx.State * list Effect) :=
  if negb (truthy (JStr (trim (ChatInterfaceJsx.input s))))
     || ChatInterfaceJsx.isLoading s
  then None
  else
    let userMessage := trim (ChatInterfaceJsx.input s) in
    Some (ChatInterfaceJsx.mkState
            (ChatInterfaceJsx.messages s
               ++ [ChatInterfaceJsx.mkJsxMessage (JStr userMessage) true])
            "" true JNull,
          [Fetch (ServicesApi.fetchChatResponse userMessage
                    ((λ msg, mkHistoryItem
                               (if ChatInterfaceJsx.isUser msg then "user" else "assistant")
                               (ChatInterfaceJsx.text msg))
                       <$> ChatInterfaceJsx.messages s))]).

(** [handleSubmit], after the [await]. [posts] is [Some l] when
    [response.posts] is the array [l]; otherwise [response.posts] is the
    primitive the response object holds under that name, and calling
    [forEach] on a non-empty string throws. *)
Definition handleSubmit_resume (o : fetch_outcome) (posts : option (list jsval))
    (s : ChatInterfaceJsx.State) : ChatInterfaceJsx.State * list Effect :=
  let '(settled, logged) := ServicesApi.fetchChatResponse_settle o in
  let on_error m s0 :=
    let '(s', e) :=
      ChatInterfaceJsx.caught "Error:"
        "Sorry, there was an error processing your message. Please try again."
        id m s0 in
    (s', logged ++ e) in
  match settled with
  | inl m => on_error m s
  | inr response =>
      let botResponse :=
        js_or (js_get response "response")
              (JStr "Sorry, I could not generate a response.") in
      let answered (extra : list jsval) :=
        ChatInterfaceJsx.mkState
          (ChatInterfaceJsx.messages s
             ++ [ChatInterfaceJsx.mkJsxMessage botResponse false]
             ++ ((λ post, ChatInterfaceJsx.mkJsxMessage post false) <$> extra))
          (ChatInterfaceJsx.input s) false (ChatInterfaceJsx.error s) in
      match posts with
      | Some l => (answered l, logged)
      | None =>
          let p := js_get response "posts" in
          if truthy p && is_string p
          then on_error type_error_message
                 (ChatInterfaceJsx.mkState
                    (ChatInterfaceJsx.messages s
                       ++ [ChatInterfaceJsx.mkJsxMessage botResponse false])
                    (ChatInterfaceJsx.input s)
                    (ChatInterfaceJsx.isLoading s)
                    (ChatInterfaceJsx.error s))
          else (answered [], logged)
      end
  end.
End Builtins.

End GeneratorChat.

(** ** Responses whose body is [null] *)

Module FullBody.

(** [fetch_outcome] has the responses whose body, once parsed, can be read
    by property name. The one JSON value that cannot is [null]: this type
    adds the responses whose body is [null]. [type_error] is the message of
    the [TypeError] that reading a property of [null] throws. *)
Inductive outcome : Type :=
  | Readable (o : fetch_outcome)
  | NullBody (ok : bool) (status : Z) (type_error : string).

(** [fetchChatResponse] (services/api), from its first [await] on. With a
    [null] body: when the response is not ok, [errorData] is [null] and
    [errorData.detail] throws into the [catch]; when it is ok, the function
    resolves with [null]. *)
Definition fetchChatResponse_settle (o : outcome) : (string + parsed) * list Effect :=
  match o with
  | Readable o =>
      let '(settled, logged) := ServicesApi.fetchChatResponse_settle o in
      (match settled with
       | inl m => inl m
       | inr response => inr (PObject response)
       end, logged)
  | NullBody ok status type_error =>
      if negb ok then
        if bool_decide (type_error = "Failed to fetch") then
          (inl "Unable to connect to the server. Please make sure the backend server is running.", [])
        else
          (inl type_error, [ConsoleError "Error fetching chat response:"])
      else (inr PNull, [])
  end.

(** How the continuation of [sendMessageREST] ends: the handler runs to
    its end, or the updater it handed to [setMessages] throws when React runs
    it, and the provider does not survive the render. *)
Inductive resumed : Type :=
  | Handled (r : ChatState * list Effect)
  | UpdaterThrows (effects : list Effect).

(** [sendMessageREST], after the [await]. When [response] is [null]:
    [setMessages] only stores its updater, [response.should_post] throws into
    the [catch], which logs and clears [isTyping], and the stored updater,
    which reads [response.message], throws in the next render. *)
Definition sendMessageREST_resume (o : outcome) (s : ChatState) : resumed :=
  match o with
  | Readable o => Handled (sendMessageREST_resume o s)
  | NullBody ok status type_error =>
      match fetchChatResponse_settle (NullBody ok status type_error) with
      | (inl _, logged) =>
          Handled ((emit_all logged >>>
                    emit (ConsoleError "Error sending message:") >>>
                    setIsTyping false) s)
      | (inr _, logged) =>
          UpdaterThrows (logged ++ [ConsoleError "Error sending message:"])
      end
  end.

End FullBody.

(** * Properties *)

(** Splits on the tests of [handleWebSocketMessage], in its order. *)
Ltac handler_cases o :=
  destruct (truthy (js_get o "error"));
    [by cbn|];
  destruct (js_strict_eq (js_get o "type") (JStr "complete"));
    [destruct (truthy (js_get o "should_post") && truthy (js_get o "post_content"));
       by cbn|];
  destruct (truthy (js_get o "content")); by cbn.

(** Unfolds one handler down to the record it builds. *)
Ltac unfold_handler :=
  cbn [step ServicesApi.ws_onmessage ServicesApi.ws_onerror ServicesApi.ws_onclose
       ServicesApi.ws_onopen mbind option_bind handleWebSocketMessage];
  unfold sendMessageREST_resume, onError, onClose, seq, when, emit, emit_all, skip,
    setIsTyping, setMessages, setCurrentPostContent, setShowPostPreview,
    updateSockets;
  cbn [fst snd].

(** ** Strings and values *)

Lemma string_app_empty_r (s : string) : s +:+ "" = s.
Proof.
  induction s as [|a s IH]; [done|].
  change (String a (s +:+ "") = String a s). by rewrite IH.
Qed.

Lemma string_app_assoc (a b c : string) : (a +:+ b) +:+ c = a +:+ (b +:+ c).
Proof.
  induction a as [|x a IH]; [done|].
  change (String x ((a +:+ b) +:+ c) = String x (a +:+ (b +:+ c))). by rewrite IH.
Qed.

Lemma string_app_empty_inv (a b : string) : a +:+ b = "" → a = "" ∧ b = "".
Proof. destruct a; [done|]. intros H. discriminate H. Qed.

Lemma truthy_str (t : string) : truthy (JStr t) = negb (bool_decide (t = "")).
Proof. done. Qed.

Lemma js_add_str (c t : string) : js_add (JStr c) (JStr t) = JStr (c +:+ t).
Proof. done. Qed.

Lemma js_add_str_r (v : jsval) (t : string) :
  js_add v (JStr t) = JStr (js_to_string v +:+ t).
Proof. unfold js_add. by rewrite orb_true_r. Qed.

Lemma js_strict_eq_str (v : jsval) (k : string) :
  js_strict_eq v (JStr k) = bool_decide (v = JStr k).
Proof. by destruct v. Qed.

(** ** The chunk updater *)

Lemma append_chunk_snoc (c : jsval) (l : list Message) (m : Message) :
  append_chunk c (l ++ [m]) =
    if bool_decide (role m = "assistant")
    then l ++ [set_content (js_add (content m) c) m]
    else l ++ [m; mkMessage "assistant" c JUndefined].
Proof.
  unfold append_chunk.
  rewrite length_app. cbn [length].
  replace (Z.to_nat (Z.of_nat (length l + 1) - 1)) with (length l + 0)%nat by lia.
  rewrite lookup_app_r by lia.
  replace (length l + 0 - length l)%nat with 0%nat by lia. cbn [lookup list_lookup fmap option_fmap option_map].
  rewrite bool_decide_eq_false_2 by lia. cbn [orb].
  destruct (decide (role m = "assistant")) as [Hr|Hr].
  - rewrite (bool_decide_eq_true_2 (role m = _)) by done.
    rewrite bool_decide_eq_false_2 by (rewrite Hr; intros H; by apply H).
    by rewrite alter_app_r.
  - rewrite (bool_decide_eq_false_2 (role m = _)) by done.
    rewrite bool_decide_eq_true_2 by congruence.
    by rewrite <- app_assoc.
Qed.

Lemma append_chunk_not_assistant (c : jsval) (prev : list Message) :
  last_role prev ≠ Some "assistant" →
  append_chunk c prev = prev ++ [mkMessage "assistant" c JUndefined].
Proof.
  destruct prev as [|m0 prev0] using rev_ind; [done|].
  unfold last_role. rewrite last_snoc. cbn. intros Hr.
  rewrite append_chunk_snoc, bool_decide_eq_false_2 by congruence.
  by rewrite <- app_assoc.
Qed.

(** ** Running handlers *)

Lemma with_messages_id (s : ChatState) : with_messages (messages s) s = s.
Proof. by destruct s. Qed.

Lemma set_content_same (m : Message) : set_content (content m) m = m.
Proof. by destruct m. Qed.

Lemma run_cons (e : Event) (evs : list Event) (s : ChatState) :
  run (e :: evs) s =
    (fst (run evs (fst (step e s))),
     snd (step e s) ++ snd (run evs (fst (step e s)))).
Proof.
  cbn [run]. unfold seq.
  destruct (step e s) as [s1 e1]. cbn [fst snd].
  by destruct (run evs s1) as [s2 e2].
Qed.

Lemma run_cons_silent (e : Event) (evs : list Event) (s s1 : ChatState) :
  step e s = (s1, []) → run (e :: evs) s = run evs s1.
Proof. intros H. rewrite run_cons, H. cbn. by destruct (run evs s1). Qed.

(** ** Fragments *)

(** A fragment with empty text is ignored; any other goes through the
    chunk updater. Nothing else in the state changes and nothing is
    emitted. *)
Lemma step_fragment (s : ChatState) (ws : nat) (o : gmap string jsval) (t : string) :
  is_fragment o t →
  step (SocketMessage ws (Some (PObject o))) s =
    (if bool_decide (t = "") then s
     else with_messages (append_chunk (JStr t) (messages s)) s, []).
Proof.
  intros (Herr & Hty & Hc).
  cbn [step ServicesApi.ws_onmessage mbind option_bind handleWebSocketMessage].
  rewrite Herr, js_strict_eq_str, bool_decide_eq_false_2 by done.
  rewrite Hc, truthy_str.
  by destruct (bool_decide (t = "")).
Qed.

Lemma deliver_onto_assistant (ws : nat)
    (datas : list (gmap string jsval)) (texts : list string) :
  Forall2 is_fragment datas texts →
  ∀ (s : ChatState) (l : list Message) (m : Message) (c : string),
    messages s = l ++ [m] →
    role m = "assistant" →
    content m = JStr c →
    run (deliver ws datas) s =
      (with_messages (l ++ [set_content (JStr (c +:+ concat_texts texts)) m]) s, []).
Proof.
  induction 1 as [|o t datas texts Hf _ IH]; intros s l m c Hm Hr Hc.
  - cbn [deliver fmap list_fmap run concat_texts foldr]. unfold skip.
    rewrite string_app_empty_r, <- Hc, set_content_same, <- Hm.
    by rewrite with_messages_id.
  - cbn [deliver fmap list_fmap]. fold (deliver ws datas).
    rewrite (run_cons_silent _ _ _ _ (step_fragment s ws o t Hf)).
    change (concat_texts (t :: texts)) with (t +:+ concat_texts texts).
    case_bool_decide as Ht.
    + subst t. by apply IH.
    + rewrite Hm, append_chunk_snoc, bool_decide_eq_true_2 by done.
      rewrite Hc, js_add_str.
      rewrite (IH _ l (set_content (JStr (c +:+ t)) m) (c +:+ t)) by done.
      by rewrite string_app_assoc.
Qed.

Lemma concat_texts_cons_empty (t : string) (texts : list string) :
  concat_texts (t :: texts) = "" ↔ t = "" ∧ concat_texts texts = "".
Proof.
  split.
  - apply string_app_empty_inv.
  - intros [-> H]. exact H.
Qed.

(** C1 (as the code has it). Fragments delivered while the last turn is
    not an assistant turn: when at least one text is non-empty, exactly one
    ASSISTANT turn is added, whose content is the concatenation of the texts
    in arrival order; when every text is empty (or there is no fragment), the
    fragments are ignored and no turn is added. Nothing else changes. *)
Theorem fragments_concatenate (ws : nat)
    (datas : list (gmap string jsval)) (texts : list string) (s : ChatState) :
  Forall2 is_fragment datas texts →
  last_role (messages s) ≠ Some "assistant" →
  run (deliver ws datas) s =
    (if bool_decide (concat_texts texts = "") then s
     else with_messages
            (messages s ++ [mkMessage "assistant" (JStr (concat_texts texts)) JUndefined]) s,
     []).
Proof.
  intros Hf. revert s.
  induction Hf as [|o t datas texts Hf Hrest IH]; intros s Hlast.
  - done.
  - cbn [deliver fmap list_fmap]. fold (deliver ws datas).
    rewrite (run_cons_silent _ _ _ _ (step_fragment s ws o t Hf)).
    destruct (decide (t = "")) as [->|Ht].
    + rewrite (bool_decide_eq_true_2 ("" = "")), IH by done.
      by change (concat_texts ("" :: texts)) with (concat_texts texts).
    + rewrite (bool_decide_eq_false_2 (t = "")) by done.
      rewrite append_chunk_not_assistant by done.
      rewrite (deliver_onto_assistant ws datas texts Hrest _ (messages s)
                 (mkMessage "assistant" (JStr t) JUndefined) t) by done.
      rewrite bool_decide_eq_false_2; [done|].
      by intros [? _]%concat_texts_cons_empty.
Qed.

Lemma fragments_concatenate_witness :
  run (deliver 0 [ {[ "content" := JStr "Here " ]};
                   {[ "content" := JStr "" ]};
                   {[ "content" := JStr "are tips..." ]} ])
      (with_messages [mkMessage "user" (JStr "Career tips") JUndefined] initial_state)
  = (with_messages [mkMessage "user" (JStr "Career tips") JUndefined;
                    mkMessage "assistant" (JStr "Here are tips...") JUndefined]
       initial_state, []).
Proof.
  rewrite (fragments_concatenate 0 _ ["Here "; ""; "are tips..."]).
  - reflexivity.
  - repeat constructor; by vm_compute.
  - by vm_compute.
Defined.

(** C1 as stated fails on a fragment whose text is empty: it does not
    create the ASSISTANT turn. *)
Lemma fragment_empty_text_creates_no_turn :
  let s := with_messages [mkMessage "user" (JStr "hi") JUndefined] initial_state in
  let o : gmap string jsval := {[ "content" := JStr "" ]} in
  is_fragment o "" ∧
  last_role (messages s) = Some "user" ∧
  messages (fst (run (deliver 0 [o]) s)) = messages s ∧
  messages (fst (run (deliver 0 [o]) s))
    ≠ messages s ++ [mkMessage "assistant" (JStr (concat_texts [""])) JUndefined].
Proof. by vm_compute. Qed.

(** ** Error events *)

(** C2 (as the code has it). After an Error event [isTyping] is false and
    the turn list is what it was: the error goes to the console and no turn
    is added. The same holds when the REST request fails. *)
Theorem error_event_resets_typing_only
    (s : ChatState) (ws : nat) (o : gmap string jsval) (f : fetch_outcome) :
  is_error_event o →
  fetch_fails f = true →
  let r := step (SocketMessage ws (Some (PObject o))) s in
  let r' := step (FetchSettled f) s in
  (isTyping (fst r) = false ∧
   messages (fst r) = messages s ∧
   currentPostContent (fst r) = currentPostContent s ∧
   showPostPreview (fst r) = showPostPreview s ∧
   snd r = [ConsoleError "Error from WebSocket:"]) ∧
  (isTyping (fst r') = false ∧
   messages (fst r') = messages s ∧
   currentPostContent (fst r') = currentPostContent s ∧
   showPostPreview (fst r') = showPostPreview s ∧
   last (snd r') = Some (ConsoleError "Error sending message:") ∧
   List.filter is_transport (snd r') = []).
Proof.
  intros Herr Hf. split.
  - unfold_handler. unfold is_error_event in Herr. by rewrite Herr.
  - unfold fetch_fails in Hf. unfold_handler.
    destruct (ServicesApi.fetchChatResponse_settle f) as [[m|response] logged] eqn:Hs;
      [|done].
    cbn. repeat split; try done.
    + by rewrite last_snoc.
    + revert Hs. unfold ServicesApi.fetchChatResponse_settle.
      repeat case_match; intros; by simplify_eq.
Qed.

Lemma error_event_resets_typing_only_witness :
  let s := fst (run [Mount; SocketOpened 0; SendMessage "hi"] initial_state) in
  let r := step (SocketMessage 0 (Some (PObject {[ "error" := JStr "boom" ]}))) s in
  let r' := step (FetchSettled (FetchResponds false 500 (inl "Unexpected token"))) s in
  (isTyping (fst r) = false ∧
   messages (fst r) = messages s ∧
   currentPostContent (fst r) = currentPostContent s ∧
   showPostPreview (fst r) = showPostPreview s ∧
   snd r = [ConsoleError "Error from WebSocket:"]) ∧
  (isTyping (fst r') = false ∧
   messages (fst r') = messages s ∧
   currentPostContent (fst r') = currentPostContent s ∧
   showPostPreview (fst r') = showPostPreview s ∧
   last (snd r') = Some (ConsoleError "Error sending message:") ∧
   List.filter is_transport (snd r') = []).
Proof.
  intros s.
  apply (error_event_resets_typing_only s 0 {[ "error" := JStr "boom" ]}
           (FetchResponds false 500 (inl "Unexpected token"))).
  - reflexivity.
  - reflexivity.
Defined.

(** C2 as stated fails: an Error event adds no turn. The turn list keeps
    its length and its last turn is still the user's. *)
Lemma error_event_adds_no_turn :
  let s := fst (run [Mount; SocketOpened 0; SendMessage "hi"] initial_state) in
  let o : gmap string jsval := {[ "error" := JStr "boom" ]} in
  let s' := fst (step (SocketMessage 0 (Some (PObject o))) s) in
  is_error_event o ∧
  isTyping s = true ∧
  isTyping s' = false ∧
  length (messages s') ≠ S (length (messages s)) ∧
  messages s' = [mkMessage "user" (JStr "hi") JUndefined].
Proof. by vm_compute. Qed.

(** ** Complete events and the publish offer *)

Lemma step_complete (s : ChatState) (ws : nat) (o : gmap string jsval) :
  is_complete_event o →
  let r := step (SocketMessage ws (Some (PObject o))) s in
  messages (fst r) = messages s ∧
  isTyping (fst r) = false ∧
  (currentPostContent (fst r), showPostPreview (fst r)) = offer_after o s ∧
  websocket (fst r) = websocket s ∧
  useWebsocket (fst r) = useWebsocket s ∧
  sockets (fst r) = sockets s ∧
  snd r = [].
Proof.
  intros [Herr Hty]. unfold_handler. unfold offer_after.
  rewrite Herr, Hty. cbn.
  by destruct (truthy (js_get o "should_post") && truthy (js_get o "post_content")).
Qed.

Lemma resume_reply (s : ChatState) (status : Z) (response : gmap string jsval) :
  let r := step (FetchSettled (FetchResponds true status (inr response))) s in
  messages (fst r) =
    messages s ++ [mkMessage "assistant" (js_get response "message")
                     (js_get response "should_post")] ∧
  isTyping (fst r) = false ∧
  (currentPostContent (fst r), showPostPreview (fst r)) = offer_after response s ∧
  snd r = [].
Proof.
  unfold_handler. unfold offer_after. cbn.
  by destruct (truthy (js_get response "should_post")
               && truthy (js_get response "post_content")).
Qed.

(** C10. A Complete event, and likewise a REST reply, raises the publish
    offer exactly when [should_post] and [post_content] are both truthy,
    and then with [post_content]; otherwise (for instance [post_content]
    absent or empty) the pending content and the preview flag are left as
    they were. *)
Theorem publish_offer_needs_both
    (s : ChatState) (ws : nat) (o response : gmap string jsval) (status : Z) :
  is_complete_event o →
  let s1 := fst (step (SocketMessage ws (Some (PObject o))) s) in
  let s2 := fst (step (FetchSettled (FetchResponds true status (inr response))) s) in
  (currentPostContent s1, showPostPreview s1) =
    (if truthy (js_get o "should_post") && truthy (js_get o "post_content")
     then (js_get o "post_content", true)
     else (currentPostContent s, showPostPreview s)) ∧
  (currentPostContent s2, showPostPreview s2) =
    (if truthy (js_get response "should_post") && truthy (js_get response "post_content")
     then (js_get response "post_content", true)
     else (currentPostContent s, showPostPreview s)).
Proof.
  intros Hc. split.
  - by destruct (step_complete s ws o Hc) as (_ & _ & H & _).
  - by destruct (resume_reply s status response) as (_ & _ & H & _).
Qed.

Lemma publish_offer_needs_both_witness :
  let o : gmap string jsval :=
    <[ "type" := JStr "complete" ]> (<[ "should_post" := JBool true ]>
      {[ "post_content" := JStr "" ]}) in
  let response : gmap string jsval :=
    <[ "message" := JStr "Done" ]> (<[ "should_post" := JBool true ]>
      {[ "post_content" := JStr "Draft" ]}) in
  let s1 := fst (step (SocketMessage 0 (Some (PObject o))) initial_state) in
  let s2 := fst (step (FetchSettled (FetchResponds true 200 (inr response))) initial_state) in
  (currentPostContent s1, showPostPreview s1) = (JNull, false) ∧
  (currentPostContent s2, showPostPreview s2) = (JStr "Draft", true).
Proof.
  intros o response.
  apply (publish_offer_needs_both initial_state 0 o response 200).
  by vm_compute.
Defined.

(** ** Fragments after Complete *)

(** C3 (as the code has it). A Fragment that arrives after the Complete
    event is not dropped: with a trailing ASSISTANT turn, a non-empty text
    is appended to the content of that turn (an empty text is ignored). The
    turns before it, [isTyping] (false) and the publish offer stay as the
    Complete event left them. *)
Theorem fragment_after_complete_appends
    (s : ChatState) (ws : nat) (oc fr : gmap string jsval) (t : string)
    (l : list Message) (m : Message) :
  is_complete_event oc →
  is_fragment fr t →
  messages s = l ++ [m] →
  role m = "assistant" →
  let s1 := fst (step (SocketMessage ws (Some (PObject oc))) s) in
  let r := step (SocketMessage ws (Some (PObject fr))) s1 in
  messages (fst r) =
    l ++ [if bool_decide (t = "") then m
          else set_content (JStr (js_to_string (content m) +:+ t)) m] ∧
  isTyping (fst r) = false ∧
  currentPostContent (fst r) = currentPostContent s1 ∧
  showPostPreview (fst r) = showPostPreview s1 ∧
  snd r = [].
Proof.
  intros Hc Hf Hm Hr s1 r.
  destruct (step_complete s ws oc Hc) as (Hm1 & Hty1 & _).
  fold s1 in Hm1, Hty1.
  unfold r. rewrite (step_fragment s1 ws fr t Hf). cbn [fst snd].
  case_bool_decide.
  - by rewrite Hm1, Hm.
  - rewrite Hm1, Hm, append_chunk_snoc, bool_decide_eq_true_2, js_add_str_r by done.
    done.
Qed.

Lemma fragment_after_complete_appends_witness :
  let s := fst (run [Mount; SocketOpened 0; SendMessage "Career tips";
                     SocketMessage 0 (Some (PObject {[ "content" := JStr "Here are tips..." ]}))]
                  initial_state) in
  let oc : gmap string jsval := {[ "type" := JStr "complete" ]} in
  let fr : gmap string jsval := {[ "content" := JStr " (more)" ]} in
  let s1 := fst (step (SocketMessage 0 (Some (PObject oc))) s) in
  let r := step (SocketMessage 0 (Some (PObject fr))) s1 in
  messages (fst r) =
    [mkMessage "user" (JStr "Career tips") JUndefined;
     mkMessage "assistant" (JStr "Here are tips... (more)") JUndefined] ∧
  isTyping (fst r) = false ∧
  currentPostContent (fst r) = currentPostContent s1 ∧
  showPostPreview (fst r) = showPostPreview s1 ∧
  snd r = [].
Proof.
  intros s oc fr.
  apply (fragment_after_complete_appends s 0 oc fr " (more)"
           [mkMessage "user" (JStr "Career tips") JUndefined]
           (mkMessage "assistant" (JStr "Here are tips...") JUndefined)).
  - by vm_compute.
  - by vm_compute.
  - reflexivity.
  - reflexivity.
Defined.

(** C3 as stated fails: the straggler changes the content of the turn
    that the Complete event closed. *)
Lemma straggler_alters_finalized_turn :
  let s := fst (run [Mount; SocketOpened 0; SendMessage "Career tips";
                     SocketMessage 0 (Some (PObject {[ "content" := JStr "Here are tips..." ]}));
                     SocketMessage 0 (Some (PObject {[ "type" := JStr "complete" ]}))]
                  initial_state) in
  let s' := fst (step (SocketMessage 0 (Some (PObject {[ "content" := JStr "!" ]}))) s) in
  isTyping s = false ∧
  content <$> last (messages s) = Some (JStr "Here are tips...") ∧
  content <$> last (messages s') = Some (JStr "Here are tips...!") ∧
  messages s' ≠ messages s.
Proof. by vm_compute. Qed.

(** ** Sending while a reply is awaited *)

(** C4 (as the code has it). The guard against a second send lives in the
    chat input form, not in [sendMessage]: with [isTyping] true, a submit of
    the form does not call [sendMessage]; the state and the text in the
    field are unchanged and nothing is sent. *)
Theorem submit_while_typing_is_rejected
    (trim : string → string) (message : string) (s : ChatState) :
  isTyping s = true →
  ChatContainer_submit trim message s = (message, (s, [])).
Proof.
  intros Hty. unfold ChatContainer_submit, ChatInput.handleSubmit.
  by rewrite Hty, andb_false_r.
Qed.

Lemma submit_while_typing_is_rejected_witness :
  let s := fst (run [Mount; SocketOpened 0; SendMessage "first"] initial_state) in
  isTyping s = true ∧
  ChatContainer_submit ascii_trim "second" s = ("second", (s, [])).
Proof.
  intros s. split; [reflexivity|].
  apply (submit_while_typing_is_rejected ascii_trim "second" s).
  reflexivity.
Defined.

(** C4 as stated fails: [sendMessage] itself, which the topic list of the
    side bar calls directly, does not look at [isTyping]. *)
Lemma send_while_typing_mutates :
  let s := fst (run [Mount; SocketOpened 0; SendMessage "first"] initial_state) in
  let r := handleTopicSelect "second" s in
  isTyping s = true ∧
  handleTopicSelect "second" = sendMessage "second" ∧
  messages (fst r) = messages s ++ [mkMessage "user" (JStr "second") JUndefined] ∧
  messages (fst r) ≠ messages s ∧
  List.filter is_transport (snd r) ≠ [].
Proof. by vm_compute. Qed.

(** ** Falling back to REST *)

Lemma sendMessageREST_spec (text : string) (s : ChatState) :
  sendMessageREST text s =
    (fst (setIsTyping true
            (with_messages (messages s ++ [mkMessage "user" (JStr text) JUndefined]) s)),
     [Fetch (ServicesApi.fetchChatResponse text (history_item <$> messages s))]).
Proof. done. Qed.

(** A send with the socket absent or not open goes through
    [sendMessageREST], after at most a console line. *)
Lemma sendMessage_socket_not_open (text : string) (s : ChatState) :
  socket_open s = false →
  fst (sendMessage text s) = fst (sendMessageREST text s) ∧
  List.filter is_transport (snd (sendMessage text s)) = snd (sendMessageREST text s).
Proof.
  unfold socket_open, sendMessage, sendMessageWS. intros Hso.
  destruct (websocket s) as [ws|] eqn:Hws.
  - rewrite Hso. cbn [negb].
    by destruct (useWebsocket s && bool_decide (is_Some (Some ws))).
  - by rewrite andb_false_r.
Qed.

(** C5 (as the code has it). A send that finds the socket absent or not
    open is delivered over REST, by one [fetchChatResponse] request carrying
    the same message and the history before it, and nothing goes out on the
    socket. The provider does not change its transport choice:
    [useWebsocket] and [websocket] are what they were. *)
Theorem fallback_replays_over_rest (text : string) (s : ChatState) :
  socket_open s = false →
  let r := sendMessage text s in
  List.filter is_transport (snd r) =
    [Fetch (ServicesApi.fetchChatResponse text (history_item <$> messages s))] ∧
  messages (fst r) = messages s ++ [mkMessage "user" (JStr text) JUndefined] ∧
  isTyping (fst r) = true ∧
  useWebsocket (fst r) = useWebsocket s ∧
  websocket (fst r) = websocket s ∧
  sockets (fst r) = sockets s.
Proof.
  intros Hso r.
  destruct (sendMessage_socket_not_open text s Hso) as [Hst Heff].
  unfold r. rewrite Heff, Hst, sendMessageREST_spec. by cbn.
Qed.

Lemma fallback_replays_over_rest_witness :
  let s := fst (run [Mount] initial_state) in
  let r := sendMessage "hi" s in
  List.filter is_transport (snd r) =
    [Fetch (ServicesApi.fetchChatResponse "hi" [])] ∧
  messages (fst r) = [mkMessage "user" (JStr "hi") JUndefined] ∧
  isTyping (fst r) = true ∧
  useWebsocket (fst r) = true ∧
  websocket (fst r) = Some 0%nat ∧
  sockets (fst r) = [CONNECTING].
Proof.
  intros s.
  apply (fallback_replays_over_rest "hi" s).
  reflexivity.
Defined.

(** C5 as stated fails: the fallback is taken per send and demotes
    nothing. The send made while the socket is still connecting goes over
    REST, [useWebsocket] stays true, and the next send, made once the socket
    has opened, goes over the socket. *)
Lemma fallback_does_not_demote :
  let s := fst (run [Mount] initial_state) in
  let s1 := fst (sendMessage "hi" s) in
  let s2 := fst (run [SocketOpened 0; FetchSettled (FetchResponds true 200 (inr ∅))] s1) in
  socket_open s = false ∧
  List.filter is_transport (snd (sendMessage "hi" s)) =
    [Fetch (ServicesApi.fetchChatResponse "hi" [])] ∧
  ¬ rest_only s1 ∧
  List.filter is_fetch (snd (sendMessage "again" s2)) = [] ∧
  List.filter is_socket_send (snd (sendMessage "again" s2)) ≠ [].
Proof. by vm_compute. Qed.

(** ** The stream is never reopened *)





(** No callback of the socket opens another socket, in any state: there is
    no reconnection. *)
Lemma socket_events_never_reconnect (ws : nat) (raw : option parsed) (s : ChatState) :
  let quiet e := forallb (λ x, negb (is_new_socket x)) (snd (step e s)) = true
                 ∧ websocket (fst (step e s)) = websocket s in
  quiet (SocketOpened ws) ∧ quiet (SocketClosed ws) ∧ quiet (SocketErrored ws)
  ∧ quiet (SocketMessage ws raw).
Proof.
  repeat split; try done.
  - destruct raw as [[|o]|]; unfold_handler; try done. handler_cases o.
  - destruct raw as [[|o]|]; unfold_handler; try done. handler_cases o.
Qed.

(** ** Malformed payloads *)

(** C7 (as the code has it). A payload that does not parse (and likewise
    the payload [null], on which the handler throws) is handled as a
    socket-level error is: it is logged and handed to the [onError]
    callback, which writes to the console. No turn is added; the state is
    left as it was. *)
Theorem malformed_payload_only_logged (s : ChatState) (ws : nat) :
  step (SocketMessage ws None) s =
    (s, [ConsoleError "Error parsing WebSocket message:"; ConsoleError "WebSocket error:"]) ∧
  step (SocketMessage ws (Some PNull)) s =
    (s, [ConsoleError "Error parsing WebSocket message:"; ConsoleError "WebSocket error:"]) ∧
  step (SocketErrored ws) s =
    (s, [ConsoleError "WebSocket error:"; ConsoleError "WebSocket error:"]).
Proof. done. Qed.

(** C7 as stated fails: after a malformed payload [isTyping] is still
    true, whereas an Error event resets it. *)
Lemma malformed_payload_keeps_typing :
  let s := fst (run [Mount; SocketOpened 0; SendMessage "hi"] initial_state) in
  let malformed := fst (step (SocketMessage 0 None) s) in
  let errored :=
    fst (step (SocketMessage 0 (Some (PObject {[ "error" := JStr "boom" ]}))) s) in
  isTyping s = true ∧
  isTyping malformed = true ∧
  isTyping errored = false ∧
  malformed ≠ errored ∧
  messages malformed = messages s.
Proof. by vm_compute. Qed.

(** ** The request body *)

Lemma formatted_history_shape (h : list ApiJs.UiMessage) :
  forallb is_role_content
    (json_of_history_item <$>
       ((λ msg, mkHistoryItem (if ApiJs.isUser msg then "user" else "assistant")
                              (JStr (ApiJs.text msg))) <$> h)) = true.
Proof. induction h as [|m h IH]; [done|]. cbn. by rewrite IH. Qed.

(** C8 (as the code has it). Both [fetchChatResponse] functions issue a
    POST. The one of [api/api.js] sends
    [{ message, chat_history: [{role, content}] }], with the message
    trimmed. The one of [services/api], which the chat provider calls, sends
    [{ messages: [...] }]: the history followed by the new message as a
    user turn. *)
Theorem chat_request_bodies
    (trim : string → string) (message : string)
    (uiHistory : list ApiJs.UiMessage) (chatHistory : list HistoryItem) :
  let a := ApiJs.fetchChatResponse trim message uiHistory in
  let b := ServicesApi.fetchChatResponse message chatHistory in
  (req_method a = "POST" ∧
   chat_request_shape (req_body a) = true ∧
   req_body a =
     JsonObj [("message", JsonStr (trim message));
              ("chat_history",
               JsonArr ((λ m, JsonObj [("role", JsonStr (if ApiJs.isUser m
                                                          then "user" else "assistant"));
                                       ("content", JsonStr (ApiJs.text m))])
                          <$> uiHistory))]) ∧
  (req_method b = "POST" ∧
   chat_request_shape (req_body b) = false ∧
   req_body b =
     JsonObj [("messages",
               JsonArr ((json_of_history_item <$> chatHistory)
                          ++ [JsonObj [("role", JsonStr "user");
                                       ("content", JsonStr message)]]))]).
Proof.
  repeat split.
  - cbn. apply formatted_history_shape.
  - cbn. do 3 f_equal. by rewrite <- list_fmap_compose.
  - cbn. by rewrite fmap_app.
Qed.

(** C8 as stated fails on the request the chat provider makes: its body
    has the single field [messages]. *)
Lemma provider_request_has_other_shape :
  let req := ServicesApi.fetchChatResponse "hi" [] in
  snd (sendMessageREST "hi" initial_state) = [Fetch req] ∧
  req_method req = "POST" ∧
  req_body req =
    JsonObj [("messages",
              JsonArr [JsonObj [("role", JsonStr "user"); ("content", JsonStr "hi")]])] ∧
  chat_request_shape (req_body req) = false.
Proof. by vm_compute. Qed.

(** ** The scenario *)

(** C9. From the empty conversation, with the socket open: sending
    "Career tips", then the fragments "Here " and "are tips...", then the
    Complete event with [should_post] true and [post_content]
    "Here are tips...", leaves exactly the two turns USER "Career tips" and
    ASSISTANT "Here are tips...", [isTyping] false, and the pending publish
    content "Here are tips...". *)
Theorem career_tips_scenario :
  let s0 := fst (run [Mount; SocketOpened 0] initial_state) in
  let complete : gmap string jsval :=
    <[ "type" := JStr "complete" ]> (<[ "should_post" := JBool true ]>
      {[ "post_content" := JStr "Here are tips..." ]}) in
  let s := fst (run (SendMessage "Career tips"
                       :: deliver 0 [ {[ "content" := JStr "Here " ]};
                                      {[ "content" := JStr "are tips..." ]};
                                      complete ]) s0) in
  messages s0 = [] ∧
  messages s = [mkMessage "user" (JStr "Career tips") JUndefined;
                mkMessage "assistant" (JStr "Here are tips...") JUndefined] ∧
  isTyping s = false ∧
  currentPostContent s = JStr "Here are tips..." ∧
  showPostPreview s = true.
Proof. by vm_compute. Qed.

(** * Further properties of the provider *)

(** ** The turn list only grows *)


(** X1. The chunk updater never removes or reorders a turn: the list is
    at most one turn longer, every turn but the last is untouched, the last
    keeps its role, and the result always ends with an ASSISTANT turn. *)
Theorem append_chunk_keeps_earlier_turns (c : jsval) (prev : list Message) :
  (length prev ≤ length (append_chunk c prev) ≤ S (length prev))%nat ∧
  (∀ i : nat, (S i < length prev)%nat → append_chunk c prev !! i = prev !! i) ∧
  (role <$> prev) `prefix_of` (role <$> append_chunk c prev) ∧
  last_role (append_chunk c prev) = Some "assistant".
Proof.
  destruct prev as [|m l _] using rev_ind.
  - repeat split; try done; cbn; try lia. by exists ["assistant"].
  - rewrite append_chunk_snoc. case_bool_decide as Hr.
    + rewrite !length_app. cbn [length]. repeat split; try lia.
      * intros i Hi. rewrite !lookup_app_l by lia. done.
      * rewrite !fmap_app. cbn. exists []. by rewrite app_nil_r.
      * unfold last_role. rewrite last_snoc. cbn. by rewrite Hr.
    + rewrite !length_app. cbn [length]. repeat split; try lia.
      * intros i Hi. rewrite !lookup_app_l by lia. done.
      * rewrite !fmap_app. cbn. exists ["assistant"].
        by rewrite <- app_assoc.
      * unfold last_role.
        change (l ++ [m; mkMessage "assistant" c JUndefined])
          with (l ++ [m] ++ [mkMessage "assistant" c JUndefined]).
        by rewrite app_assoc, last_snoc.
Qed.

Lemma socket_effect_messages (s : ChatState) :
  messages (fst (socket_effect s)) = messages s.
Proof. unfold socket_effect. by destruct (useWebsocket s). Qed.

Lemma setUseWebsocket_messages (b : bool) (s : ChatState) :
  messages (fst (setUseWebsocket b s)) = messages s.
Proof.
  unfold setUseWebsocket. case_bool_decide; [done|].
  unfold seq, socket_effect_cleanup, socket_effect, storeUseWebsocket.
  destruct (useWebsocket s), (websocket s), b; done.
Qed.

Lemma sendMessage_messages (text : string) (s : ChatState) :
  messages (fst (sendMessage text s)) =
    messages s ++ [mkMessage "user" (JStr text) JUndefined] ∧
  isTyping (fst (sendMessage text s)) = true.
Proof.
  unfold sendMessage, sendMessageWS.
  destruct (useWebsocket s && bool_decide (is_Some (websocket s))); [|done].
  destruct (websocket s) as [ws|]; [|done].
  by destruct (bool_decide (sockets s !! ws = Some OPEN)).
Qed.





(** ** The transport a send takes *)

(** X3. Every send appends exactly one USER turn, sets [isTyping], and
    puts exactly one message on a transport: on the socket when
    [useWebsocket] is true and the provider's socket is open, as
    [{ message, chat_history }]; over REST otherwise. Either way the history
    is that of the turns before the send. *)
Theorem send_takes_one_transport (text : string) (s : ChatState) :
  let r := sendMessage text s in
  messages (fst r) = messages s ++ [mkMessage "user" (JStr text) JUndefined] ∧
  isTyping (fst r) = true ∧
  List.filter is_transport (snd r) =
    [match websocket s with
     | Some ws =>
         if useWebsocket s && socket_open s
         then SocketSend ws
                (JsonObj [("message", JsonStr text);
                          ("chat_history",
                           JsonArr (json_of_history_item <$>
                                      (history_item <$> messages s)))])
         else Fetch (ServicesApi.fetchChatResponse text (history_item <$> messages s))
     | None => Fetch (ServicesApi.fetchChatResponse text (history_item <$> messages s))
     end].
Proof.
  destruct (sendMessage_messages text s) as [Hm Ht].
  repeat split; [done..|].
  unfold sendMessage, sendMessageWS, socket_open.
  destruct (websocket s) as [ws|]; [|by rewrite andb_false_r].
  rewrite bool_decide_eq_true_2 by done. rewrite andb_true_r.
  destruct (useWebsocket s); [|done]. cbn [andb].
  by destruct (bool_decide (sockets s !! ws = Some OPEN)).
Qed.

(** ** A REST exchange *)

Lemma services_resolves_iff (o : fetch_outcome) (response : gmap string jsval) :
  fst (ServicesApi.fetchChatResponse_settle o) = inr response
  ↔ ∃ status, o = FetchResponds true status (inr response).
Proof.
  split.
  - unfold ServicesApi.fetchChatResponse_settle.
    destruct o as [m|[] status [m|d]]; cbn [negb]; repeat case_match;
      intros; simplify_eq/=; eauto.
  - by intros [status ->].
Qed.

(** X4. [fetchChatResponse] resolves exactly when the response is ok and
    its body parses, and then with that body and without logging; in every
    other case it rejects. *)
Theorem fetchChatResponse_resolves_iff
    (o : fetch_outcome) (response : gmap string jsval) :
  (fst (ServicesApi.fetchChatResponse_settle o) = inr response
   ↔ ∃ status, o = FetchResponds true status (inr response)) ∧
  (fst (ServicesApi.fetchChatResponse_settle o) = inr response →
   snd (ServicesApi.fetchChatResponse_settle o) = []).
Proof.
  split; [apply services_resolves_iff|].
  intros [status ->]%services_resolves_iff. done.
Qed.

Lemma fetchChatResponse_resolves_iff_witness :
  fst (ServicesApi.fetchChatResponse_settle
         (FetchResponds true 200 (inr {[ "message" := JStr "Done" ]})))
  = inr {[ "message" := JStr "Done" ]}.
Proof.
  apply (proj1 (fetchChatResponse_resolves_iff _ {[ "message" := JStr "Done" ]})).
  by exists 200.
Defined.

(** X5. What a response that is not ok is rejected with. When its body
    has no truthy [detail] (an object without one, or a body that does not
    parse), the error message is "HTTP error! status: " followed by the
    status code. When its body is [null], reading [errorData.detail] throws,
    and the rejection carries the message of that [TypeError] instead. Either
    way the error is logged once. *)
Theorem http_error_without_detail
    (status : Z) (body : string + gmap string jsval) (type_error : string) :
  truthy (js_get (match body with inl _ => ∅ | inr d => d end) "detail") = false →
  type_error ≠ "Failed to fetch" →
  FullBody.fetchChatResponse_settle (FullBody.Readable (FetchResponds false status body)) =
    (inl ("HTTP error! status: " +:+ pretty status),
     [ConsoleError "Error fetching chat response:"]) ∧
  FullBody.fetchChatResponse_settle (FullBody.NullBody false status type_error) =
    (inl type_error, [ConsoleError "Error fetching chat response:"]).
Proof.
  intros Hd Hte. split.
  - unfold FullBody.fetchChatResponse_settle, ServicesApi.fetchChatResponse_settle.
    cbn [negb]. unfold js_or. rewrite Hd. cbn [js_to_string].
    by rewrite bool_decide_eq_false_2.
  - cbn. by rewrite bool_decide_eq_false_2.
Qed.

Lemma http_error_without_detail_witness :
  FullBody.fetchChatResponse_settle
    (FullBody.Readable (FetchResponds false 503 (inl "Unexpected token < in JSON"))) =
    (inl "HTTP error! status: 503", [ConsoleError "Error fetching chat response:"]) ∧
  FullBody.fetchChatResponse_settle
    (FullBody.NullBody false 503 "Cannot read properties of null (reading 'detail')") =
    (inl "Cannot read properties of null (reading 'detail')",
     [ConsoleError "Error fetching chat response:"]).
Proof.
  apply (http_error_without_detail 503 (inl "Unexpected token < in JSON")
           "Cannot read properties of null (reading 'detail')").
  - reflexivity.
  - by vm_compute.
Defined.

(** X6. A whole exchange over REST (the socket absent or not open): the
    send followed by the settlement of its request. Unless the reply is an ok
    response whose body is [null], the handler runs to its end and leaves
    [isTyping] false; after a reply the turn list has gained the USER turn
    and one ASSISTANT turn carrying the reply's [message], after a failure
    only the USER turn, which then stays unanswered. On an ok response whose
    body is [null], and only then, the updater of the ASSISTANT turn throws
    when React runs it, after the [catch] has logged the error. *)
Theorem rest_exchange (text : string) (o : FullBody.outcome) (s : ChatState) :
  socket_open s = false →
  let s1 := fst (sendMessage text s) in
  match FullBody.sendMessageREST_resume o s1 with
  | FullBody.UpdaterThrows effects =>
      (∃ status type_error, o = FullBody.NullBody true status type_error) ∧
      effects = [ConsoleError "Error sending message:"]
  | FullBody.Handled (s', effects) =>
      (∀ status type_error, o ≠ FullBody.NullBody true status type_error) ∧
      isTyping s' = false ∧
      messages s' =
        messages s ++ mkMessage "user" (JStr text) JUndefined ::
          match fst (FullBody.fetchChatResponse_settle o) with
          | inr (PObject response) =>
              [mkMessage "assistant" (js_get response "message")
                 (js_get response "should_post")]
          | _ => []
          end
  end.
Proof.
  intros Hso. cbn zeta.
  destruct (sendMessage_socket_not_open text s Hso) as [-> _].
  rewrite sendMessageREST_spec. cbn [fst].
  destruct o as [o|[] status type_error].
  - cbn [FullBody.sendMessageREST_resume FullBody.fetchChatResponse_settle].
    unfold_handler.
    destruct (ServicesApi.fetchChatResponse_settle o) as [[m|response] logged];
      cbn [fst].
    + done.
    + destruct (truthy (js_get response "should_post")
                && truthy (js_get response "post_content")); cbn;
        (split; [done|]); (split; [done|]); by rewrite <- app_assoc.
  - cbn. split; [by eexists _, _|done].
  - cbn. case_bool_decide; cbn; done.
Qed.

Lemma rest_exchange_witness :
  let s := fst (run [Mount] initial_state) in
  let o := FullBody.Readable (FetchResponds true 200 (inr {[ "message" := JStr "Hello" ]})) in
  let s1 := fst (sendMessage "hi" s) in
  match FullBody.sendMessageREST_resume o s1 with
  | FullBody.UpdaterThrows effects =>
      (∃ status type_error, o = FullBody.NullBody true status type_error) ∧
      effects = [ConsoleError "Error sending message:"]
  | FullBody.Handled (s', effects) =>
      (∀ status type_error, o ≠ FullBody.NullBody true status type_error) ∧
      isTyping s' = false ∧
      messages s' =
        messages s ++ mkMessage "user" (JStr "hi") JUndefined ::
          match fst (FullBody.fetchChatResponse_settle o) with
          | inr (PObject response) =>
              [mkMessage "assistant" (js_get response "message")
                 (js_get response "should_post")]
          | _ => []
          end
  end.
Proof.
  intros s o.
  exact (rest_exchange "hi" o s eq_refl).
Defined.

(** ** Switching streaming off and on *)

(** X7. Switching streaming off closes the provider's socket and nothing
    else: one [close()] on that socket, which starts closing if it was
    connecting or open; the provider keeps its reference to it, and the
    conversation is untouched. Setting the flag to the value it has does
    nothing at all. *)
Theorem switching_streaming_off (s : ChatState) (ws : nat) :
  useWebsocket s = true →
  websocket s = Some ws →
  let r := setUseWebsocket false s in
  snd r = [SocketClose ws] ∧
  useWebsocket (fst r) = false ∧
  websocket (fst r) = Some ws ∧
  sockets (fst r) =
    (match sockets s !! ws with
     | Some CONNECTING | Some OPEN => <[ws := CLOSING]> (sockets s)
     | _ => sockets s
     end) ∧
  messages (fst r) = messages s ∧
  isTyping (fst r) = isTyping s ∧
  setUseWebsocket true s = (s, []).
Proof.
  intros Hu Hw. unfold setUseWebsocket, socket_effect_cleanup, socket_effect, seq.
  rewrite Hu, Hw. cbn. done.
Qed.

Lemma switching_streaming_off_witness :
  let s := fst (run [Mount; SocketOpened 0] initial_state) in
  let r := setUseWebsocket false s in
  snd r = [SocketClose 0] ∧
  useWebsocket (fst r) = false ∧
  websocket (fst r) = Some 0%nat ∧
  sockets (fst r) = [CLOSING] ∧
  messages (fst r) = messages s ∧
  isTyping (fst r) = isTyping s ∧
  setUseWebsocket true s = (s, []).
Proof.
  intros s.
  exact (switching_streaming_off s 0 eq_refl eq_refl).
Defined.

(** X8. Switching streaming back on never reuses a socket: it opens a new
    one, which is connecting, and points the provider at it; the sockets
    that existed are left as they were. Until that socket opens, a send
    still goes over REST. *)
Theorem switching_streaming_on (s : ChatState) (text : string) :
  useWebsocket s = false →
  let r := setUseWebsocket true s in
  snd r = [NewWebSocket ServicesApi.WS_BASE_URL] ∧
  useWebsocket (fst r) = true ∧
  websocket (fst r) = Some (length (sockets s)) ∧
  sockets (fst r) = sockets s ++ [CONNECTING] ∧
  socket_open (fst r) = false ∧
  List.filter is_transport (snd (sendMessage text (fst r))) =
    [Fetch (ServicesApi.fetchChatResponse text (history_item <$> messages s))].
Proof.
  intros Hu r.
  assert (fst r = fst (storeUseWebsocket true
                         (fst (setWebsocket (Some (length (sockets s)))
                                 (fst (updateSockets (λ l, l ++ [CONNECTING]) s)))))
          ∧ snd r = [NewWebSocket ServicesApi.WS_BASE_URL]) as [Hr He].
  { unfold r, setUseWebsocket, socket_effect_cleanup, socket_effect, seq.
    rewrite Hu. by cbn. }
  assert (socket_open (fst r) = false) as Hso.
  { rewrite Hr. unfold socket_open. cbn.
    rewrite lookup_app_r by lia. rewrite Nat.sub_diag. cbn.
    by rewrite bool_decide_eq_false_2. }
  repeat split; try done; try by rewrite Hr.
  destruct (sendMessage_socket_not_open text (fst r) Hso) as [_ ->].
  rewrite sendMessageREST_spec. cbn [snd]. by rewrite Hr.
Qed.

Lemma switching_streaming_on_witness :
  let s := fst (run [Mount; SocketOpened 0; SetUseWebsocket false] initial_state) in
  let r := setUseWebsocket true s in
  snd r = [NewWebSocket ServicesApi.WS_BASE_URL] ∧
  useWebsocket (fst r) = true ∧
  websocket (fst r) = Some 1%nat ∧
  sockets (fst r) = [CLOSING; CONNECTING] ∧
  socket_open (fst r) = false ∧
  List.filter is_transport (snd (sendMessage "hi" (fst r))) =
    [Fetch (ServicesApi.fetchChatResponse "hi" [])].
Proof.
  intros s.
  exact (switching_streaming_on s "hi" eq_refl).
Defined.

(** ** The post preview *)

Lemma truthy_text (v : jsval) :
  text_or_falsy v = true → truthy v = true → ∃ t, v = JStr t ∧ t ≠ "".
Proof.
  unfold text_or_falsy. intros Ht Hv. rewrite Hv, orb_false_r in Ht.
  destruct v as [| | | | |t]; try done.
  exists t. split; [done|]. by intros ->.
Qed.

Lemma step_offer_text (e : Event) (s : ChatState) :
  offers_text (Provider e) = true →
  (currentPostContent (fst (step e s)) = currentPostContent s ∧
   showPostPreview (fst (step e s)) = showPostPreview s) ∨
  ((∃ t, currentPostContent (fst (step e s)) = JStr t ∧ t ≠ "") ∧
   showPostPreview (fst (step e s)) = true).
Proof.
  intros He.
  destruct e as [|b|ws|ws|ws|ws raw|text|o]; try by left.
  - left. cbn [step]. unfold socket_effect. by destruct (useWebsocket s).
  - left. cbn [step]. unfold setUseWebsocket. case_bool_decide; [done|].
    unfold seq, socket_effect_cleanup, socket_effect, storeUseWebsocket.
    by destruct (useWebsocket s), (websocket s), b.
  - destruct raw as [[|o]|]; try by left. cbn [offers_text] in He.
    unfold_handler.
    destruct (truthy (js_get o "error")); [by left|].
    destruct (js_strict_eq (js_get o "type") (JStr "complete")).
    + destruct (truthy (js_get o "should_post")); [|by left].
      destruct (truthy (js_get o "post_content")) eqn:Hp; [|by left].
      right. split; [|done]. by apply truthy_text.
    + destruct (truthy (js_get o "content")); by left.
  - left. cbn [step]. unfold sendMessage, sendMessageWS.
    destruct (useWebsocket s && bool_decide (is_Some (websocket s))); [|done].
    destruct (websocket s) as [ws|]; [|done].
    by destruct (bool_decide (sockets s !! ws = Some OPEN)).
  - cbn [offers_text] in He. unfold_handler.
    destruct (ServicesApi.fetchChatResponse_settle o) as [[m|response] logged];
      [by left|].
    cbn [fst] in He.
    destruct (truthy (js_get response "should_post")); [|by left].
    destruct (truthy (js_get response "post_content")) eqn:Hp; [by right; split; [apply truthy_text|]|by left].
Qed.

(** X9. The preview dialog, when it is raised, has a text to show. Start
    from a state where the preview flag, if up, goes with a non-empty text
    (the initial state is one), and let the provider handle events whose
    [post_content], when they carry one, is a string, with the user closing
    or confirming the preview in between: then the flag is never up without a
    non-empty text as pending content, so [PostPreview] renders the dialog
    with that text and its render never throws. *)
Theorem preview_always_has_content (evs : list UiEvent) (s : ChatState) :
  (showPostPreview s = true → ∃ t, currentPostContent s = JStr t ∧ t ≠ "") →
  forallb (λ e, offers_text e && negb (is_ui_mount e)) evs = true →
  let s' := fst (ui_run evs s) in
  preview_rendering s' ≠ RenderThrows ∧
  (showPostPreview s' = true →
   ∃ t, t ≠ "" ∧ currentPostContent s' = JStr t ∧ preview_rendering s' = Dialog t).
Proof.
  intros Hinv Hevs.
  assert (showPostPreview (fst (ui_run evs s)) = true →
          ∃ t, currentPostContent (fst (ui_run evs s)) = JStr t ∧ t ≠ "") as Hfinal.
  { revert s Hinv. induction evs as [|e evs IH]; intros s Hinv; [done|].
    cbn [forallb] in Hevs. apply andb_prop in Hevs as [He Hevs].
    apply andb_prop in He as [He _].
    cbn [ui_run]. destruct (ui_step e s) as [s1 e1] eqn:Hstep.
    assert (showPostPreview s1 = true → ∃ t, currentPostContent s1 = JStr t ∧ t ≠ "")
      as Hinv1.
    { destruct e as [e| |]; cbn in Hstep; unfold postToLinkedIn in Hstep;
        simplify_eq; [|by cbn..].
      destruct (step_offer_text e s He) as [[-> ->]|[? _]]; done. }
    specialize (IH Hevs s1 Hinv1).
    by destruct (ui_run evs s1) as [s2 e2]. }
  cbn zeta. unfold preview_rendering, PostPreview.
  destruct (showPostPreview (fst (ui_run evs s))).
  - destruct Hfinal as (t & -> & Ht); [done|].
    rewrite truthy_str, bool_decide_eq_false_2 by done. cbn.
    split; [done|]. intros _. by exists t.
  - split; [done|]. intros [=].
Qed.

Lemma preview_always_has_content_witness :
  let complete : gmap string jsval :=
    <[ "type" := JStr "complete" ]> (<[ "should_post" := JBool true ]>
      {[ "post_content" := JStr "Draft" ]}) in
  let s := fst (run [Mount; SocketOpened 0] initial_state) in
  let s' := fst (ui_run [Provider (SendMessage "Career tips");
                         Provider (SocketMessage 0 (Some (PObject complete)));
                         ClosePreview;
                         Provider (SendMessage "Another");
                         Provider (SocketMessage 0 (Some (PObject complete)))] s) in
  showPostPreview s' = true ∧
  preview_rendering s' ≠ RenderThrows ∧
  (showPostPreview s' = true →
   ∃ t, t ≠ "" ∧ currentPostContent s' = JStr t ∧ preview_rendering s' = Dialog t).
Proof.
  intros complete s. split; [reflexivity|].
  apply (preview_always_has_content _ s).
  - intros [=].
  - reflexivity.
Defined.

(** ** The shape of what goes out on the socket *)

Lemma js_add_defined (a b : jsval) : js_add a b ≠ JUndefined.
Proof. unfold js_add. by repeat case_match. Qed.

Lemma append_chunk_contents_defined (c : jsval) (prev : list Message) :
  c ≠ JUndefined →
  contents_defined prev → contents_defined (append_chunk c prev).
Proof.
  unfold contents_defined. intros Hc Hprev.
  destruct prev as [|m l _] using rev_ind.
  - by repeat constructor.
  - rewrite append_chunk_snoc. apply Forall_app in Hprev as [Hl Hm].
    case_bool_decide.
    + apply Forall_app. split; [done|]. repeat constructor. apply js_add_defined.
    + apply Forall_app. split; [done|]. apply Forall_inv in Hm. by repeat constructor.
Qed.

Lemma step_contents_defined (e : Event) (s : ChatState) :
  reply_has_message e = true →
  contents_defined (messages s) →
  contents_defined (messages (fst (step e s))).
Proof.
  intros He Hs.
  destruct e as [|b|ws|ws|ws|ws raw|text|o]; try done.
  - cbn [step]. by rewrite socket_effect_messages.
  - cbn [step]. by rewrite setUseWebsocket_messages.
  - destruct raw as [[|o]|]; unfold_handler; try done.
    destruct (truthy (js_get o "error")); [done|].
    destruct (js_strict_eq (js_get o "type") (JStr "complete")).
    + by destruct (truthy (js_get o "should_post")
                   && truthy (js_get o "post_content")).
    + destruct (truthy (js_get o "content")) eqn:Hc; [|done].
      cbn. apply append_chunk_contents_defined; [|done].
      intros Hu. by rewrite Hu in Hc.
  - cbn [step]. destruct (sendMessage_messages text s) as [-> _].
    apply Forall_app. split; [done|]. by repeat constructor.
  - cbn [reply_has_message] in He. unfold_handler.
    destruct (ServicesApi.fetchChatResponse_settle o) as [[m|response] logged];
      [done|].
    cbn [fst] in He. apply bool_decide_eq_true_1 in He.
    assert (contents_defined
              (messages s ++ [mkMessage "assistant" (js_get response "message")
                                (js_get response "should_post")])) as Hgoal.
    { apply Forall_app. split; [done|]. by repeat constructor. }
    by destruct (truthy (js_get response "should_post")
                 && truthy (js_get response "post_content")).
Qed.

Lemma history_shape (msgs : list Message) :
  contents_defined msgs →
  forallb is_role_content (json_of_history_item <$> (history_item <$> msgs)) = true.
Proof.
  induction 1 as [|m msgs Hm _ IH]; [done|].
  cbn [fmap list_fmap forallb]. rewrite IH, andb_true_r.
  unfold json_of_history_item, history_item, json_field. cbn.
  by destruct (content m).
Qed.

(** X10. What is sent on the socket has the shape
    [{ message: string, chat_history: [{role, content}] }] as long as every
    turn has a content that is not [undefined]; and that is kept by every
    event except a REST reply that carries no [message]. *)
Theorem socket_payload_shape
    (evs : list Event) (s : ChatState) (text : string) (ws : nat) :
  contents_defined (messages s) →
  forallb reply_has_message evs = true →
  let s' := fst (run evs s) in
  useWebsocket s' = true →
  websocket s' = Some ws →
  sockets s' !! ws = Some OPEN →
  contents_defined (messages s') ∧
  ∃ payload, snd (sendMessage text s') = [SocketSend ws payload]
             ∧ chat_request_shape payload = true.
Proof.
  intros Hs Hevs s' Hu Hw Ho.
  assert (contents_defined (messages s')) as Hs'.
  { unfold s'. clear Hu Hw Ho s'. revert s Hs Hevs.
    induction evs as [|e evs IH]; intros s Hs Hevs; [done|].
    cbn [forallb] in Hevs. apply andb_prop in Hevs as [He Hevs].
    rewrite run_cons. cbn [fst]. apply IH; [|done].
    by apply step_contents_defined. }
  split; [done|].
  unfold sendMessage, sendMessageWS. rewrite Hu, Hw.
  rewrite bool_decide_eq_true_2 by done. cbn [andb].
  rewrite (bool_decide_eq_true_2 _ Ho). cbn [negb].
  eexists. split; [reflexivity|].
  cbn. by apply history_shape.
Qed.

Lemma socket_payload_shape_witness :
  let s := fst (run [Mount; SocketOpened 0] initial_state) in
  let evs := [SendMessage "Career tips";
              SocketMessage 0 (Some (PObject {[ "content" := JStr "Here are tips..." ]}));
              SocketMessage 0 (Some (PObject {[ "type" := JStr "complete" ]}))] in
  let s' := fst (run evs s) in
  contents_defined (messages s') ∧
  ∃ payload, snd (sendMessage "More" s') = [SocketSend 0 payload]
             ∧ chat_request_shape payload = true.
Proof.
  intros s evs.
  apply (socket_payload_shape evs s "More" 0).
  - constructor.
  - reflexivity.
  - reflexivity.
  - reflexivity.
  - reflexivity.
Defined.

(** ** The typing flag *)

Lemma step_typing (e : Event) (s : ChatState) :
  is_mount e = false →
  isTyping (fst (step e s)) = typing_after e (isTyping s).
Proof.
  intros He. destruct e as [|b|ws|ws|ws|ws raw|text|o]; try done.
  - cbn [step typing_after]. unfold setUseWebsocket. case_bool_decide; [done|].
    unfold seq, socket_effect_cleanup, socket_effect, storeUseWebsocket.
    by destruct (useWebsocket s), (websocket s), b.
  - destruct raw as [[|o]|]; unfold_handler; try done. cbn [typing_after].
    destruct (truthy (js_get o "error")); [done|].
    destruct (js_strict_eq (js_get o "type") (JStr "complete")); cbn [orb].
    + by destruct (truthy (js_get o "should_post")
                   && truthy (js_get o "post_content")).
    + by destruct (truthy (js_get o "content")).
  - cbn [step typing_after]. apply sendMessage_messages.
  - unfold_handler. cbn [typing_after].
    destruct (ServicesApi.fetchChatResponse_settle o) as [[m|response] logged];
      [done|].
    by destruct (truthy (js_get response "should_post")
                 && truthy (js_get response "post_content")).
Qed.

Lemma typing_after_untouched (e : Event) (before : bool) :
  touches_typing e = false → typing_after e before = before.
Proof.
  destruct e as [|b|ws|ws|ws|ws [[|o]|]|text|o]; try done.
  cbn. by intros ->.
Qed.

(** X11. What the events of a mounted provider do to [isTyping]: a send
    sets it, an Error event, a Complete event and the settlement of a REST
    request clear it, and every other event (fragments, payloads that do not
    parse, the socket opening, failing or closing, a change of
    [useWebsocket]) leaves it as it is. So when the socket fails or closes
    while a reply is awaited, [isTyping] stays true, and the chat input form,
    which it disables, rejects every submit. *)
Theorem typing_survives_socket_loss
    (e : Event) (evs : list Event) (s : ChatState)
    (trim : string → string) (message : string) :
  is_mount e = false →
  forallb (λ e, negb (touches_typing e) && negb (is_mount e)) evs = true →
  let s' := fst (run evs s) in
  isTyping (fst (step e s)) =
    match e with
    | SendMessage _ => true
    | FetchSettled _ => false
    | SocketMessage _ (Some (PObject o)) =>
        if truthy (js_get o "error") || js_strict_eq (js_get o "type") (JStr "complete")
        then false else isTyping s
    | _ => isTyping s
    end ∧
  isTyping s' = isTyping s ∧
  (isTyping s = true → ChatContainer_submit trim message s' = (message, (s', []))).
Proof.
  intros He Hevs s'.
  split; [by rewrite step_typing|].
  assert (isTyping s' = isTyping s) as Hty.
  { unfold s'. clear s' e He. revert s.
    induction evs as [|e evs IH]; intros s; [done|].
    cbn [forallb] in Hevs. apply andb_prop in Hevs as [He Hevs].
    apply andb_prop in He as [Ht Hm].
    apply negb_true_iff in Ht. apply negb_true_iff in Hm.
    rewrite run_cons. cbn [fst]. rewrite IH by done.
    by rewrite step_typing, typing_after_untouched. }
  split; [done|]. intros Hs.
  unfold ChatContainer_submit, ChatInput.handleSubmit.
  by rewrite Hty, Hs, andb_false_r.
Qed.

Lemma typing_survives_socket_loss_witness :
  let s := fst (run [Mount; SocketOpened 0; SendMessage "Career tips"] initial_state) in
  let e := SocketMessage 0 (Some (PObject {[ "type" := JStr "complete" ]})) in
  let evs := [SocketMessage 0 (Some (PObject {[ "content" := JStr "Here " ]}));
              SocketMessage 0 None; SocketErrored 0; SocketClosed 0;
              SetUseWebsocket false] in
  let s' := fst (run evs s) in
  isTyping (fst (step e s)) = false ∧
  isTyping s' = isTyping s ∧
  (isTyping s = true → ChatContainer_submit ascii_trim "hello" s' = ("hello", (s', []))).
Proof.
  intros s e evs.
  apply (typing_survives_socket_loss e evs s ascii_trim "hello").
  - reflexivity.
  - reflexivity.
Defined.

(** * The axios client and the chat page *)

(** X12. The request of [sendMessage]: a POST to [/chat] whose body is
    [{ message, chat_history: [] }], so it has the shape of the chat request
    and never carries the conversation; an [Authorization] header is attached
    exactly when a non-empty token is stored, as [Bearer] and the token. *)
Theorem axios_request (env token : option string) (message : string) :
  let req := ApiTs.sendMessage env token message in
  ApiTs.ax_method req = "post" ∧
  ApiTs.ax_url req = "/chat" ∧
  ApiTs.ax_data req =
    JsonObj [("message", JsonStr message); ("chat_history", JsonArr [])] ∧
  chat_request_shape (ApiTs.ax_data req) = true ∧
  ∀ v, ("Authorization", v) ∈ ApiTs.ax_headers req
       ↔ ∃ t, token = Some t ∧ t ≠ "" ∧ v = "Bearer " +:+ t.
Proof.
  unfold ApiTs.sendMessage, ApiTs.request_interceptor.
  destruct token as [t|].
  - rewrite truthy_str. case_bool_decide as Ht; cbn [negb].
    + split_and!; try done. intros v. split.
      * intros Hin. apply list_elem_of_singleton in Hin. by simplify_eq.
      * intros (? & ? & ? & ?). by simplify_eq.
    + split_and!; try done. intros v. cbn. split.
      * intros Hin. apply elem_of_cons in Hin as [Hin|Hin]; [by simplify_eq|].
        apply list_elem_of_singleton in Hin. simplify_eq. eauto.
      * intros (? & ? & ? & ->). simplify_eq. set_solver.
  - split_and!; try done. intros v. split.
    + intros Hin. apply list_elem_of_singleton in Hin. by simplify_eq.
    + intros (? & ? & ? & ?). by simplify_eq.
Qed.

Lemma error_object_fields (m : string) :
  let r : gmap string jsval :=
    <[ "status" := JStr "error" ]>
      {[ "error" := js_or (JStr m) (JStr "Failed to send message. Please try again.") ]} in
  js_get r "status" = JStr "error" ∧
  js_get r "error" =
    JStr (if bool_decide (m = "") then "Failed to send message. Please try again." else m).
Proof.
  cbn zeta. unfold js_get. rewrite lookup_insert_eq. split; [done|].
  rewrite lookup_insert_ne by done. rewrite lookup_singleton_eq. cbn.
  unfold js_or. rewrite truthy_str. by case_bool_decide.
Qed.

Lemma sendMessage_settle_failure (o : ApiTs.axios_outcome) (token : option string) :
  axios_fails o = true →
  js_get (ApiTs.sendMessage_settle o token).1.1 "status" = JStr "error" ∧
  ∃ text, js_get (ApiTs.sendMessage_settle o token).1.1 "error" = JStr text ∧ text ≠ "".
Proof.
  destruct o as [status [data|]|response message]; [done|..]; intros _;
    cbn -[insert singletonM].
  - destruct (error_object_fields "No response data received") as [Hs He].
    split; [done|]. rewrite He. by eexists.
  - destruct (error_object_fields
                (js_to_string
                   (js_or match response with
                          | Some (_, Some data) => js_get data "detail"
                          | _ => JUndefined
                          end (JStr message)))) as [Hs He].
    split; [done|]. rewrite He. eexists. split; [done|]. by case_bool_decide.
Qed.

(** X13. [sendMessage] turns every failure into a value: when the request
    is rejected, or is fulfilled with an empty body, the result has [status]
    "error" and a non-empty [error] text, and the failure is logged; when
    the request is fulfilled with a body, the result is that body, nothing is
    logged and the stored token is untouched. *)
Theorem axios_failure_is_a_value (o : ApiTs.axios_outcome) (token : option string) :
  let '(result, token', effects) := ApiTs.sendMessage_settle o token in
  if axios_fails o then
    js_get result "status" = JStr "error" ∧
    (∃ text, js_get result "error" = JStr text ∧ text ≠ "") ∧
    last effects = Some (ApiTs.LogError "Error sending message:")
  else
    (∃ status, o = ApiTs.AxiosFulfilled status (Some result)) ∧
    token' = token ∧ effects = [].
Proof.
  destruct o as [status [data|]|response message]; cbn -[insert singletonM].
  - split; [by eexists|done].
  - destruct (error_object_fields "No response data received") as [Hs He].
    split_and!; [done| |done]. rewrite He. by eexists.
  - destruct (error_object_fields
                (js_to_string
                   (js_or match response with
                          | Some (_, Some data) => js_get data "detail"
                          | _ => JUndefined
                          end (JStr message)))) as [Hs He].
    split_and!; [done| |by rewrite last_snoc].
    rewrite He. eexists. split; [done|]. by case_bool_decide.
Qed.

(** X14. A 401 evicts the token, and only a 401 does: after a rejection
    with status 401 the token is removed, the page is sent to [/login], and
    the next request carries no [Authorization] header; after any other
    rejection the token is what it was and there is no redirect. *)
Theorem unauthorized_evicts_token
    (env token : option string) (status : Z) (data : option (gmap string jsval))
    (message next : string) :
  let '(_, token', effects) :=
    ApiTs.sendMessage_settle (ApiTs.AxiosRejected (Some (status, data)) message) token in
  if bool_decide (status = 401) then
    token' = None ∧
    effects = [ApiTs.RemoveItem "token"; ApiTs.SetLocation "/login";
               ApiTs.LogError "Error sending message:"] ∧
    ApiTs.ax_headers (ApiTs.sendMessage env token' next)
      = [("Content-Type", "application/json")]
  else
    token' = token ∧
    effects = [ApiTs.LogError "Error sending message:"] ∧
    ApiTs.sendMessage env token' next = ApiTs.sendMessage env token next.
Proof.
  cbn -[insert singletonM]. by case_bool_decide.
Qed.

(** X15. An exchange on the chat page, from the form to the reply. A
    submit with a non-blank text while nothing is loading clears the field,
    adds the trimmed text as USER turn and sends it; whatever then happens
    to the request, exactly one ASSISTANT turn follows and [isLoading] is
    false again. When the request fails, that turn carries a non-empty error
    text. *)
Theorem chat_page_exchange
    (trim : string → string) (env token : option string) (input : string)
    (o : ApiTs.axios_outcome) (s : ChatPage.State) :
  ChatPage.isLoading s = false →
  trim input ≠ "" →
  ∃ (s1 s2 : ChatPage.State) (token' : option string)
    (effects : list ApiTs.BrowserEffect) (reply : jsval),
    ChatPage_submit trim env token input s
      = ("", (s1, Some (ApiTs.sendMessage env token (trim input)))) ∧
    ChatPage.isLoading s1 = true ∧
    ChatPage.handleSendMessage_resume o token s1 = (s2, token', effects) ∧
    ChatPage.messages s2 =
      ChatPage.messages s ++ [mkHistoryItem "user" (JStr (trim input));
                              mkHistoryItem "assistant" reply] ∧
    ChatPage.isLoading s2 = false ∧
    (axios_fails o = true → ∃ text, reply = JStr text ∧ text ≠ "").
Proof.
  intros Hl Hin.
  unfold ChatPage_submit, ChatInterface.handleSubmit.
  rewrite Hl, truthy_str, bool_decide_eq_false_2 by done. cbn [negb andb].
  unfold ChatPage.handleSendMessage, ChatPage.handleSendMessage_resume.
  pose proof (sendMessage_settle_failure o token) as Hset.
  destruct (ApiTs.sendMessage_settle o token) as [[response token'] effects].
  cbn [fst] in Hset.
  do 5 eexists. split; [reflexivity|]. split; [done|]. split; [reflexivity|].
  cbn [ChatPage.messages ChatPage.isLoading].
  split; [by rewrite <- app_assoc|]. split; [done|].
  intros Hf. destruct (Hset Hf) as (Hs & text & He & Ht).
  unfold ChatPage.assistant_content. rewrite Hs, He, js_strict_eq_str.
  rewrite bool_decide_eq_false_2 by done.
  unfold js_or. rewrite truthy_str, bool_decide_eq_false_2 by done. by eexists.
Qed.

Lemma chat_page_exchange_witness :
  ∃ (s1 s2 : ChatPage.State) (token' : option string)
    (effects : list ApiTs.BrowserEffect) (reply : jsval),
    ChatPage_submit ascii_trim None (Some "abc") "  hello " (ChatPage.mkState [] false)
      = ("", (s1, Some (ApiTs.sendMessage None (Some "abc") (ascii_trim "  hello ")))) ∧
    ChatPage.isLoading s1 = true ∧
    ChatPage.handleSendMessage_resume
      (ApiTs.AxiosRejected None "Network Error") (Some "abc") s1 = (s2, token', effects) ∧
    ChatPage.messages s2 =
      ChatPage.messages (ChatPage.mkState [] false)
        ++ [mkHistoryItem "user" (JStr (ascii_trim "  hello "));
            mkHistoryItem "assistant" reply] ∧
    ChatPage.isLoading s2 = false ∧
    (axios_fails (ApiTs.AxiosRejected None "Network Error") = true
     → ∃ text, reply = JStr text ∧ text ≠ "").
Proof.
  apply (chat_page_exchange ascii_trim None (Some "abc") "  hello "
           (ApiTs.AxiosRejected None "Network Error") (ChatPage.mkState [] false)).
  - reflexivity.
  - by vm_compute.
Defined.

(** * The chat component over api/api.js *)

Lemma jsx_request_agrees (trim : string → string) (message : string)
    (h : list ApiJs.UiMessage) :
  ChatInterfaceJsx.fetchChatResponse trim message (jsx_of_ui <$> h)
  = ApiJs.fetchChatResponse trim message h.
Proof.
  unfold ChatInterfaceJsx.fetchChatResponse, ApiJs.fetchChatResponse.
  by rewrite <- (list_fmap_compose jsx_of_ui).
Qed.

(** X16. [fetchChatResponse] of api/api.js resolves exactly when the
    response is ok, its body has a truthy [success] and [data] is an object;
    it then resolves with [data.message]. Every other outcome is a
    rejection. *)
Theorem apijs_resolves_iff
    (type_error_message : string) (o : ChatInterfaceJsx.outcome) (v : jsval) :
  fst (ChatInterfaceJsx.fetchChatResponse_settle type_error_message o) = inr v
  ↔ ∃ data inner, o = ChatInterfaceJsx.Responded true data (Some inner)
                  ∧ truthy (js_get data "success") = true
                  ∧ v = js_get inner "message".
Proof.
  split.
  - destruct o as [m|m|[] data [inner|]]; cbn; try done;
      destruct (truthy (js_get data "success")) eqn:Hs; cbn; try done.
    intros [= <-]. eauto.
  - intros (data & inner & -> & Hs & ->). cbn. by rewrite Hs.
Qed.

Lemma apijs_resolves_iff_witness :
  fst (ChatInterfaceJsx.fetchChatResponse_settle "Cannot read properties of undefined"
         (ChatInterfaceJsx.Responded true {[ "success" := JBool true ]}
            (Some {[ "message" := JStr "Draft" ]})))
  = inr (JStr "Draft").
Proof.
  apply (apijs_resolves_iff "Cannot read properties of undefined").
  exists {[ "success" := JBool true ]}, {[ "message" := JStr "Draft" ]}.
  by vm_compute.
Defined.

Lemma caught_text (label fallback : string) (decorate : string → string)
    (m : string) (s : ChatInterfaceJsx.State) :
  fallback ≠ "" →
  ∃ shown, shown ≠ "" ∧
    ChatInterfaceJsx.caught label fallback decorate m s =
      (ChatInterfaceJsx.mkState
         (ChatInterfaceJsx.messages s
            ++ [ChatInterfaceJsx.mkJsxMessage (JStr (decorate shown)) false])
         (ChatInterfaceJsx.input s) false (JStr shown),
       [ConsoleError label]).
Proof.
  intros Hf. unfold ChatInterfaceJsx.caught, js_or. rewrite truthy_str.
  case_bool_decide; cbn; eauto.
Qed.

(** X17. In this component every submit of a non-blank text is answered
    on screen. The submit adds the trimmed text as the user's message and
    clears the field; whatever then happens to the request, exactly one
    message follows it, never empty, and [isLoading] is false again. When
    the exchange fails (rejection, or a reply with an empty message), that
    message is the error text, which is also stored in [error] and
    logged. A blank text is ignored. *)
Theorem jsx_exchange_always_answers
    (trim : string → string) (type_error_message : string)
    (o : ChatInterfaceJsx.outcome) (s : ChatInterfaceJsx.State) :
  (trim (ChatInterfaceJsx.input s) = "" → ChatInterfaceJsx.handleSubmit trim s = None) ∧
  (trim (ChatInterfaceJsx.input s) ≠ "" →
   ∃ s1 s2 effects reply,
     ChatInterfaceJsx.handleSubmit trim s =
       Some (s1, [ConsoleLog "Sending request:";
                  Fetch (ChatInterfaceJsx.fetchChatResponse trim
                           (ChatInterfaceJsx.input s) (ChatInterfaceJsx.messages s))]) ∧
     ChatInterfaceJsx.input s1 = "" ∧
     ChatInterfaceJsx.handleSubmit_resume type_error_message o s1 = (s2, effects) ∧
     ChatInterfaceJsx.messages s2 =
       ChatInterfaceJsx.messages s
         ++ [ChatInterfaceJsx.mkJsxMessage (JStr (trim (ChatInterfaceJsx.input s))) true;
             ChatInterfaceJsx.mkJsxMessage reply false] ∧
     truthy reply = true ∧
     ChatInterfaceJsx.isLoading s2 = false ∧
     (jsx_fails type_error_message o = true →
        ChatInterfaceJsx.error s2 = reply ∧ is_string reply = true ∧
        last effects = Some (ConsoleError "Error:"))).
Proof.
  unfold ChatInterfaceJsx.handleSubmit. rewrite truthy_str. split.
  - intros ->. by rewrite bool_decide_eq_true_2.
  - intros Hin. rewrite bool_decide_eq_false_2 by done. cbn [negb].
    set (s1 := ChatInterfaceJsx.mkState _ "" true JNull).
    exists s1.
    unfold ChatInterfaceJsx.handleSubmit_resume, jsx_fails.
    destruct (ChatInterfaceJsx.fetchChatResponse_settle type_error_message o)
      as [[m|response] logged]; cbn [fst].
    + destruct (caught_text "Error:"
                  "Sorry, there was an error processing your message. Please try again."
                  id m s1) as (shown & Hs & ->); [done|].
      eexists _, _, _. split_and!; try reflexivity.
      * cbn. by rewrite <- app_assoc.
      * cbn. by rewrite bool_decide_eq_false_2.
      * intros _. split_and!; try done. by rewrite last_snoc.
    + destruct (truthy response) eqn:Ht.
      * eexists _, _, _. split_and!; try reflexivity; try done.
        cbn. by rewrite <- app_assoc.
      * destruct (caught_text "Error:"
                    "Sorry, there was an error processing your message. Please try again."
                    id "No response received from the AI" s1)
          as (shown & Hs & ->); [done|].
        eexists _, _, _. split_and!; try reflexivity.
        -- cbn. by rewrite <- app_assoc.
        -- cbn. by rewrite bool_decide_eq_false_2.
        -- intros _. split_and!; try done. by rewrite last_snoc.
Qed.

Lemma jsx_exchange_always_answers_witness :
  let s := ChatInterfaceJsx.mkState [] " hi " false JNull in
  ∃ s1 s2 effects reply,
    ChatInterfaceJsx.handleSubmit ascii_trim s =
      Some (s1, [ConsoleLog "Sending request:";
                 Fetch (ChatInterfaceJsx.fetchChatResponse ascii_trim " hi " [])]) ∧
    ChatInterfaceJsx.input s1 = "" ∧
    ChatInterfaceJsx.handleSubmit_resume "Cannot read properties of undefined"
      (ChatInterfaceJsx.Responded false ∅ None) s1 = (s2, effects) ∧
    ChatInterfaceJsx.messages s2 =
      [ChatInterfaceJsx.mkJsxMessage (JStr (ascii_trim " hi ")) true;
       ChatInterfaceJsx.mkJsxMessage reply false] ∧
    truthy reply = true ∧
    ChatInterfaceJsx.isLoading s2 = false ∧
    (jsx_fails "Cannot read properties of undefined"
       (ChatInterfaceJsx.Responded false ∅ None) = true →
       ChatInterfaceJsx.error s2 = reply ∧ is_string reply = true ∧
       last effects = Some (ConsoleError "Error:")).
Proof.
  intros s.
  apply (proj2 (jsx_exchange_always_answers ascii_trim
                  "Cannot read properties of undefined"
                  (ChatInterfaceJsx.Responded false ∅ None) s)).
  by vm_compute.
Defined.

Lemma pretty_N_go_ne_empty (x : N) (s : string) : s ≠ "" → pretty_N_go x s ≠ "".
Proof.
  revert s. induction (N.lt_wf_0 x) as [x _ IH]; intros s Hs.
  assert (x = 0 ∨ 0 < x)%N as [->|Hx] by lia.
  - by rewrite pretty_N_go_0.
  - rewrite pretty_N_go_step by done. apply IH; [by apply N.div_lt|done].
Qed.

Lemma pretty_Z_ne_empty (n : Z) : pretty n ≠ "".
Proof.
  destruct n as [|p|p]; [done|..].
  - unfold pretty, pretty_Z, pretty, pretty_positive, pretty, pretty_N.
    rewrite decide_False by done.
    rewrite pretty_N_go_step by done. by apply pretty_N_go_ne_empty.
  - done.
Qed.

(** A truthy value never prints as the empty text. *)
Lemma truthy_to_string (v : jsval) : truthy v = true → js_to_string v ≠ "".
Proof.
  destruct v as [| |[]|n| |t]; try done.
  - intros _. apply pretty_Z_ne_empty.
  - cbn. by intros ?%negb_true_iff%bool_decide_eq_false_1.
Qed.

(** X18. Posting to LinkedIn from this component always reports back in
    the chat: the call sets [isLoading] and sends one POST with the content
    and visibility PUBLIC; when the request settles exactly one message is
    added and [isLoading] is false again. The message is the check mark
    followed by a non-empty text when the body has a truthy [success], and
    the cross followed by the error text, also stored in [error], in every
    other case. *)
Theorem post_to_linkedin_always_reports
    (content : jsval) (o : string + gmap string jsval) (s : ChatInterfaceJsx.State) :
  let r1 := ChatInterfaceJsx.handlePostToLinkedIn content s in
  let r2 := ChatInterfaceJsx.handlePostToLinkedIn_resume o (fst r1) in
  ChatInterfaceJsx.isLoading (fst r1) = true ∧
  (∃ req, snd r1 = [Fetch req] ∧ req_method req = "POST" ∧
          req_body req = JsonObj (json_field "content" content
                                  ++ [("visibility", JsonStr "PUBLIC")])) ∧
  ChatInterfaceJsx.isLoading (fst r2) = false ∧
  ∃ shown, shown ≠ "" ∧
    ChatInterfaceJsx.messages (fst r2) =
      ChatInterfaceJsx.messages s
        ++ [ChatInterfaceJsx.mkJsxMessage
              (JStr ((if post_succeeds o then "✅ " else "❌ ") +:+ shown)) false] ∧
    (post_succeeds o = false → ChatInterfaceJsx.error (fst r2) = JStr shown).
Proof.
  cbn zeta. split; [done|]. split; [by eexists|].
  unfold ChatInterfaceJsx.handlePostToLinkedIn_resume, post_succeeds.
  destruct o as [m|data].
  - edestruct (caught_text "Error posting to LinkedIn:" "Failed to post to LinkedIn"
                 (λ m, "❌ " +:+ m) m) as (shown & Hs & ->); [done|].
    split; [done|]. by exists shown.
  - destruct (truthy (js_get data "success")); cbn [negb].
    + split; [done|]. eexists. split_and!; [|reflexivity|done].
      unfold js_or. destruct (truthy (js_get data "message")) eqn:Hm; [|done].
      by apply truthy_to_string.
    + edestruct (caught_text "Error posting to LinkedIn:" "Failed to post to LinkedIn"
                   (λ m, "❌ " +:+ m)
                   (js_to_string (js_or (js_get data "error")
                                    (JStr "Failed to post to LinkedIn"))))
        as (shown & Hs & ->); [done|].
      split; [done|]. by exists shown.
Qed.

(** * [generatePosts] and the chat component over services/api *)

(** X19. [generatePosts] sends the body [fetchChatResponse] sends for the
    same text and history, to [/posts]. It resolves exactly when
    [fetchChatResponse] would, with the same value; on a response that is not
    ok it rejects with "API error: " and the status, without reading the
    body; and every rejection is logged. *)
Theorem generatePosts_and_chat
    (topic : string) (chatHistory : list HistoryItem) (o : fetch_outcome) :
  req_body (ServicesApiPosts.generatePosts topic chatHistory)
    = req_body (ServicesApi.fetchChatResponse topic chatHistory) ∧
  req_url (ServicesApiPosts.generatePosts topic chatHistory)
    = "http://localhost:8000/posts" ∧
  (∀ response,
     fst (ServicesApiPosts.generatePosts_settle o) = inr response
     ↔ fst (ServicesApi.fetchChatResponse_settle o) = inr response) ∧
  (∀ status body,
     o = FetchResponds false status body →
     fst (ServicesApiPosts.generatePosts_settle o) = inl ("API error: " +:+ pretty status)) ∧
  (∀ m, fst (ServicesApiPosts.generatePosts_settle o) = inl m →
        snd (ServicesApiPosts.generatePosts_settle o)
          = [ConsoleError "Error generating posts:"]).
Proof.
  split_and!; try done.
  - intros response. rewrite services_resolves_iff.
    unfold ServicesApiPosts.generatePosts_settle.
    destruct o as [m|[] status [m|d]]; cbn; split;
      try (intros [status' Ho]; by simplify_eq);
      intros; simplify_eq; eauto.
  - by intros status body ->.
  - intros m. unfold ServicesApiPosts.generatePosts_settle.
    by repeat case_match.
Qed.

(** X20. This component checks [isLoading] in the handler itself: a submit
    while loading, or of a blank text, does nothing. An accepted submit adds
    the trimmed text as the user's message and sends it with the history
    before it: one [{role, content}] item for each message that was there, in
    order, with the role read off [isUser] and the content being the text.
    Whatever the outcome, at least one non-empty message follows the user's
    and [isLoading] is false again. When the reply comes with an array of
    posts, the messages added are the reply text and then each post, in
    order. *)
Theorem generator_chat_exchange
    (trim : string → string) (type_error_message : string)
    (s : ChatInterfaceJsx.State) :
  (trim (ChatInterfaceJsx.input s) = "" ∨ ChatInterfaceJsx.isLoading s = true →
   GeneratorChat.handleSubmit trim s = None) ∧
  (trim (ChatInterfaceJsx.input s) ≠ "" → ChatInterfaceJsx.isLoading s = false →
   ∃ s1,
     GeneratorChat.handleSubmit trim s =
       Some (s1,
             [Fetch (ServicesApi.fetchChatResponse
                       (trim (ChatInterfaceJsx.input s))
                       ((λ msg, {| h_role := if ChatInterfaceJsx.isUser msg
                                             then "user" else "assistant";
                                   h_content := ChatInterfaceJsx.text msg |})
                          <$> ChatInterfaceJsx.messages s))]) ∧
     ChatInterfaceJsx.input s1 = "" ∧
     ChatInterfaceJsx.isLoading s1 = true ∧
     ∀ o posts,
       let s2 := fst (GeneratorChat.handleSubmit_resume type_error_message o posts s1) in
       ChatInterfaceJsx.isLoading s2 = false ∧
       (∃ first rest,
          ChatInterfaceJsx.messages s2 =
            ChatInterfaceJsx.messages s
              ++ ChatInterfaceJsx.mkJsxMessage (JStr (trim (ChatInterfaceJsx.input s))) true
              :: ChatInterfaceJsx.mkJsxMessage first false :: rest ∧
          truthy first = true) ∧
       (∀ response l,
          fst (ServicesApi.fetchChatResponse_settle o) = inr response →
          posts = Some l →
          ChatInterfaceJsx.messages s2 =
            ChatInterfaceJsx.messages s
              ++ ChatInterfaceJsx.mkJsxMessage (JStr (trim (ChatInterfaceJsx.input s))) true
              :: ChatInterfaceJsx.mkJsxMessage
                   (js_or (js_get response "response")
                          (JStr "Sorry, I could not generate a response.")) false
              :: ((λ post, ChatInterfaceJsx.mkJsxMessage post false) <$> l))).
Proof.
  unfold GeneratorChat.handleSubmit. rewrite truthy_str. split.
  - intros [->| ->]; [by rewrite bool_decide_eq_true_2|by rewrite orb_true_r].
  - intros Hin Hl. rewrite Hl, bool_decide_eq_false_2 by done. cbn [negb orb].
    set (s1 := ChatInterfaceJsx.mkState _ "" true JNull).
    exists s1. split; [reflexivity|]. split; [done|]. split; [done|].
    intros o posts. cbn zeta.
    unfold GeneratorChat.handleSubmit_resume.
    destruct (ServicesApi.fetchChatResponse_settle o) as [[m|response] logged];
      cbn [fst].
    + destruct (caught_text "Error:"
                  "Sorry, there was an error processing your message. Please try again."
                  id m s1) as (shown & Hs & ->); [done|].
      cbn. split_and!; [done| |done].
      eexists _, []. split; [by rewrite <- app_assoc|].
      by rewrite truthy_str, bool_decide_eq_false_2.
    + assert (truthy (js_or (js_get response "response")
                        (JStr "Sorry, I could not generate a response.")) = true) as Hbot.
      { unfold js_or. by destruct (truthy (js_get response "response")) eqn:Hr. }
      destruct posts as [l|].
      * cbn. split_and!; [done| |].
        -- eexists _, _. split; [|exact Hbot]. by rewrite <- !app_assoc.
        -- intros ? ? [= <-] [= <-]. by rewrite <- !app_assoc.
      * destruct (truthy (js_get response "posts") && is_string (js_get response "posts")).
        -- match goal with |- context [ChatInterfaceJsx.caught _ _ _ _ ?st] =>
             destruct (caught_text "Error:"
                  "Sorry, there was an error processing your message. Please try again."
                  id type_error_message st) as (shown & Hs & ->); [done|] end.
           cbn. split_and!; [done| |done].
           eexists _, _. split; [|exact Hbot]. by rewrite <- !app_assoc.
        -- cbn. split_and!; [done| |done].
           eexists _, _. split; [|exact Hbot]. by rewrite <- !app_assoc.
Qed.

Lemma generator_chat_exchange_witness :
  let greeting := ChatInterfaceJsx.mkJsxMessage (JStr "Hi!") false in
  let s := ChatInterfaceJsx.mkState [greeting] " remote work " false JNull in
  ∃ s1,
    GeneratorChat.handleSubmit ascii_trim s =
      Some (s1,
            [Fetch (ServicesApi.fetchChatResponse "remote work"
                      [mkHistoryItem "assistant" (JStr "Hi!")])]) ∧
    ChatInterfaceJsx.input s1 = "" ∧
    ChatInterfaceJsx.isLoading s1 = true ∧
    ∀ o posts,
      let s2 := fst (GeneratorChat.handleSubmit_resume "forEach is not a function"
                       o posts s1) in
      ChatInterfaceJsx.isLoading s2 = false ∧
      (∃ first rest,
         ChatInterfaceJsx.messages s2 =
           greeting
           :: ChatInterfaceJsx.mkJsxMessage (JStr "remote work") true
           :: ChatInterfaceJsx.mkJsxMessage first false :: rest ∧
         truthy first = true) ∧
      (∀ response l,
         fst (ServicesApi.fetchChatResponse_settle o) = inr response →
         posts = Some l →
         ChatInterfaceJsx.messages s2 =
           greeting
           :: ChatInterfaceJsx.mkJsxMessage (JStr "remote work") true
           :: ChatInterfaceJsx.mkJsxMessage
                (js_or (js_get response "response")
                       (JStr "Sorry, I could not generate a response.")) false
           :: ((λ post, ChatInterfaceJsx.mkJsxMessage post false) <$> l)).
Proof.
  intros greeting s.
  apply (proj2 (generator_chat_exchange ascii_trim "forEach is not a function" s)).
  - by vm_compute.
  - reflexivity.
Defined.
